(** * servicebot: the chat core of [server.mjs]

    A shallow embedding of the session store, the retrying backend call,
    the context summariser, the completion detector / ticket-field extractor
    and the main chat handler of [src/server.mjs], with the properties its
    design document states about them.

    Modelling conventions.
    - A JavaScript string is a [string]; one character of the model is one
      code unit below 256 (the Latin-1 range).  Case folding and the white
      space class are the ECMAScript ones restricted to that range.
    - The three regular expressions of the source are fixed; each is embedded
      as the matcher the ECMAScript backtracking semantics gives for it
      (leftmost match, lazy [[\s\S]*?], greedy [\s*]).
    - The handlers are [async]; a turn is modelled as one uninterrupted run
      (no two turns interleave), in a state-and-exception monad over the
      process state.  The outside world (OpenAI, Jira) is an oracle indexed
      by the number of external calls made so far; outgoing mail is only
      recorded.
    - [console.log] output is not part of the state. *)

From Stdlib Require Import String Ascii NArith ZArith Lia List Bool.
From Stdlib Require QArith.
From stdpp Require Import base option gmap strings list.

(** ** Characters and the string built-ins the source uses *)

Module Js.

Local Open Scope N_scope.

Definition code (c : ascii) : N := N_of_ascii c.

(** ECMAScript [WhiteSpace] and [LineTerminator] below 256: TAB, LF, VT, FF,
    CR, SP, NBSP.  Both [\s] and [String.prototype.trim] use this class. *)
Definition is_white_space (c : ascii) : bool :=
  let n := code c in
  (n =? 9) || (n =? 10) || (n =? 11) || (n =? 12) || (n =? 13)
  || (n =? 32) || (n =? 160).

(** [Canonicalize] of a case-insensitive, non-unicode RegExp: the upper case
    of the code unit when that is again one code unit.  Two code units of
    the range lose their upper case to code points outside it (0xB5 and
    0xFF) and 0xDF has a two-unit upper case; they stay fixed, which keeps
    the induced equivalence on the range exact. *)
Definition canonicalize (c : ascii) : ascii :=
  let n := code c in
  if ((97 <=? n) && (n <=? 122))
     || ((224 <=? n) && (n <=? 254) && negb (n =? 247))
  then ascii_of_N (n - 32) else c.

(** [String.prototype.toLowerCase], one code unit at a time. *)
Definition lower_char (c : ascii) : ascii :=
  let n := code c in
  if ((65 <=? n) && (n <=? 90))
     || ((192 <=? n) && (n <=? 222) && negb (n =? 215))
  then ascii_of_N (n + 32) else c.

Fixpoint toLowerCase (s : string) : string :=
  match s with
  | EmptyString => EmptyString
  | String c s' => String (lower_char c) (toLowerCase s')
  end.

Fixpoint starts_with (pat s : string) : bool :=
  match pat, s with
  | EmptyString, _ => true
  | String p pat', String c s' => if Ascii.eqb p c then starts_with pat' s' else false
  | String _ _, EmptyString => false
  end.

(** [String.prototype.includes]. *)
Fixpoint includes (s pat : string) : bool :=
  starts_with pat s
  || match s with
     | EmptyString => false
     | String _ s' => includes s' pat
     end.

Fixpoint trimStart (s : string) : string :=
  match s with
  | EmptyString => EmptyString
  | String c s' => if is_white_space c then trimStart s' else s
  end.

Fixpoint trimEnd (s : string) : string :=
  match s with
  | EmptyString => EmptyString
  | String c s' =>
      match trimEnd s' with
      | EmptyString => if is_white_space c then EmptyString else String c EmptyString
      | r => String c r
      end
  end.

(** [String.prototype.trim]. *)
Definition trim (s : string) : string := trimEnd (trimStart s).

(** [a || b] on strings that may be [undefined]: the empty string and
    [undefined] are falsy. *)
Definition or_else (a : option string) (b : string) : string :=
  match a with
  | Some (String c s) => String c s
  | _ => b
  end.

Fixpoint all_chars (P : ascii -> bool) (s : string) : bool :=
  match s with
  | EmptyString => true
  | String c s' => P c && all_chars P s'
  end.

(** [lacks c s]: the code unit [c] does not occur in [s]. *)
Definition lacks (c : ascii) (s : string) : bool :=
  all_chars (fun x => negb (Ascii.eqb x c)) s.

End Js.

(** ** The regular expressions of the source *)

Module RegExp.
Import Js.

Definition char_eq_ci (p c : ascii) : bool :=
  Ascii.eqb (canonicalize p) (canonicalize c).

(** A literal under the [i] flag, anchored at the current position; the
    result is what follows the match. *)
Fixpoint literal_ci (pat s : string) : option string :=
  match pat with
  | EmptyString => Some s
  | String p pat' =>
      match s with
      | EmptyString => None
      | String c s' => if char_eq_ci p c then literal_ci pat' s' else None
      end
  end.

(** [RegExp.prototype.exec] without the sticky flag: the pattern [m] is
    tried at every position from the left; the result is the text before
    the leftmost position where it matches, and what [m] returned there. *)
Fixpoint search {R : Type} (m : string -> option R) (s : string)
  : option (string * R) :=
  match m s with
  | Some r => Some (EmptyString, r)
  | None =>
      match s with
      | EmptyString => None
      | String c s' =>
          match search m s' with
          | Some (pre, r) => Some (String c pre, r)
          | None => None
          end
      end
  end.

(** [([\s\S]*?)lit]: the lazy star takes the shortest run of code units
    after which [lit] matches; the result is (capture, rest). *)
Definition lazy_until (lit : string) (s : string) : option (string * string) :=
  search (literal_ci lit) s.

(** [<tag>([\s\S]*?)<\/tag>] with the [i] flag, anchored. *)
Definition tag_pair (tag : string) (s : string) : option (string * string) :=
  match literal_ci ("<" +:+ tag +:+ ">") s with
  | Some rest => lazy_until ("</" +:+ tag +:+ ">") rest
  | None => None
  end.

(** [\s*\[\[ORDER_COMPLETED\]\]\s*] with the [i] flag, anchored: the
    number of code units the match covers.  Both stars are greedy, and the
    literal starts with a code unit outside [\s], so giving back white
    space can never turn a failure into a match. *)
Definition marker_length (s : string) : option nat :=
  match literal_ci "[[ORDER_COMPLETED]]" (trimStart s) with
  | Some r => Some (String.length s - String.length (trimStart r))%nat
  | None => None
  end.

(** [s.replace(re, "")] with the [g] flag for a pattern that never matches
    the empty string: scan from the left; a match starting here is dropped
    whole and the scan resumes right after it ([skip] counts what is left
    of the match being dropped); otherwise the code unit is kept. *)
Fixpoint remove_all (len : string -> option nat) (skip : nat) (s : string)
  : string :=
  match s with
  | EmptyString => EmptyString
  | String c s' =>
      match skip with
      | S k => remove_all len k s'
      | O =>
          match len s with
          | Some (S k) => remove_all len k s'
          | _ => String c (remove_all len O s')
          end
      end
  end.

End RegExp.

(** ** Ticket extraction and completion detection (server.mjs 269-301) *)

Record TicketFields := {
  summary : option string;
  description : option string;
  category : option string
}.

Definition get (text : string) (tag : string) : option string :=
  match RegExp.search (RegExp.tag_pair tag) text with
  | Some (_, (inner, _)) => Some (Js.trim inner)
  | None => None
  end.

Definition extractTicketFields (text : string) : TicketFields :=
  {| summary := get text "su";
     description := get text "de";
     category := get text "ca" |}.

Definition isOrderCompleted (reply : string) : bool :=
  Js.includes (Js.toLowerCase reply) "[[order_completed]]".

Definition stripOrderCompletedTag (reply : string) : string :=
  Js.trim (RegExp.remove_all RegExp.marker_length O reply).

Definition stripTicketBlock (reply : string) : string :=
  Js.trim
    match RegExp.search (RegExp.tag_pair "ticket") reply with
    | Some (pre, (_, rest)) => pre +:+ rest
    | None => reply
    end.

Definition LF : string := String (ascii_of_N 10) EmptyString.


(** ** Values, messages and the outside world *)

(** The values a session identifier can take when it comes out of a JSON or
    form-encoded request body ([JNaN] apart, which only arithmetic yields).
    Objects and arrays are left out: they are truthy and [Map] compares them
    by identity. *)
Inductive JsValue :=
| JUndefined
| JNull
| JBool (b : bool)
| JNum (z : Z)
| JNaN
| JStr (s : string).

Global Instance JsValue_eq_dec : EqDecision JsValue.
Proof. solve_decision. Defined.

Definition JsValue_encode (v : JsValue) : (unit + unit) + (bool + (Z + (unit + string))) :=
  match v with
  | JUndefined => inl (inl tt)
  | JNull => inl (inr tt)
  | JBool b => inr (inl b)
  | JNum z => inr (inr (inl z))
  | JNaN => inr (inr (inr (inl tt)))
  | JStr s => inr (inr (inr (inr s)))
  end.

Definition JsValue_decode (x : (unit + unit) + (bool + (Z + (unit + string)))) : JsValue :=
  match x with
  | inl (inl _) => JUndefined
  | inl (inr _) => JNull
  | inr (inl b) => JBool b
  | inr (inr (inl z)) => JNum z
  | inr (inr (inr (inl _))) => JNaN
  | inr (inr (inr (inr s))) => JStr s
  end.

Global Instance JsValue_countable : Countable JsValue.
Proof.
  apply (inj_countable' JsValue_encode JsValue_decode).
  intros []; reflexivity.
Defined.

(** [ToBoolean]. *)
Definition truthy (v : JsValue) : bool :=
  match v with
  | JUndefined | JNull | JNaN => false
  | JBool b => b
  | JNum z => negb (z =? 0)%Z
  | JStr s => negb (String.eqb s "")
  end.

Inductive Role := system | user | assistant.

Record Message := { role : Role; content : string }.

(** The argument of [client.responses.create]. *)
Record Payload := {
  model : string;
  input : list Message;
  max_output_tokens : option Z;
  temperature : option QArith_base.Q
}.

(** What the handlers read of a response: [output_text], which may be
    missing.  ([usage] is only logged.) *)
Record Response := { output_text : option string }.

(** A thrown value: an error of the backend with the [status] it carries, if
    any, or the [TypeError] of a property read on [undefined]. *)
Inductive JsError :=
| ApiError (status : option Z)
| TypeError.

Definition status_of (e : JsError) : option Z :=
  match e with
  | ApiError st => st
  | TypeError => None
  end.

(** What the process does to the outside world, in order. *)
Inductive Event :=
| EvCreate (p : Payload)
| EvSleep (ms : Z)
| EvMail (text : string)
| EvJira (summary description : string).

(** The outside world: the [n]-th external call of the process is answered
    by the oracle at index [n].  [jira] answers [Some key] when
    [createJiraIssue] returns an issue whose [key] is [key], and [None] when
    anything inside the surrounding [try] throws. *)
Record Env := {
  openai : nat -> Payload -> JsError + Response;
  jira : nat -> string -> string -> option (option string)
}.

(** The process state: the [sessions] map, the number of external calls made
    and the events so far (latest last). *)
Record World := {
  sessions : gmap JsValue (list Message);
  ticks : nat;
  trace : list Event
}.

Definition initial_world : World :=
  {| sessions := ∅; ticks := O; trace := [] |}.

Definition with_sessions (f : gmap JsValue (list Message) -> gmap JsValue (list Message))
  (w : World) : World :=
  {| sessions := f (sessions w); ticks := ticks w; trace := trace w |}.

Definition emit (e : Event) (w : World) : World :=
  {| sessions := sessions w; ticks := ticks w; trace := trace w ++ [e] |}.

Definition tick (w : World) : World :=
  {| sessions := sessions w; ticks := S (ticks w); trace := trace w |}.

(** ** Computations that may throw *)

Inductive Outcome (A : Type) :=
| Return (a : A)
| Throw (e : JsError).
Arguments Return {A} a.
Arguments Throw {A} e.

Definition M (A : Type) : Type := World -> World * Outcome A.

Definition ret {A} (a : A) : M A := fun w => (w, Return a).

Definition throw {A} (e : JsError) : M A := fun w => (w, Throw e).

Definition bind {A B} (m : M A) (k : A -> M B) : M B :=
  fun w =>
    match m w with
    | (w', Return a) => k a w'
    | (w', Throw e) => (w', Throw e)
    end.

Definition modify (f : World -> World) : M unit := fun w => (f w, Return tt).

Definition gets {A} (f : World -> A) : M A := fun w => (w, Return (f w)).

Notation "x <- m ;; k" := (bind m (fun x => k))
  (at level 100, m at next level, right associativity).
Notation "m ;;; k" := (bind m (fun _ => k))
  (at level 100, right associativity).

(** ** Prompts and constants (server.mjs 74-112, 306-311) *)

Definition systemPrompt : string := "
You are KunAI, an IT support assistant.

GOAL:
- Help users with IT issues, requests, and feedback.
- Collect all info needed to open an IT support ticket.

STYLE:
- Reply in the user's language.
- Short, friendly, slightly sarcastic (never rude).

FLOW:
1) Greet the user. Ask what issue or request they have.
2) Ask for the details you need:
   - What is happening?
   - Where? (system/app/device/location/company)
   - Since when / how often?
   - Errors, screenshots, steps to reproduce (if relevant)
3) Collect contact info:
   - Name
   - Location/company
   - Optional phone
4) Summarize everything, confirm with the user, and ask if they want to add anything.

WHEN READY TO CREATE A TICKET:
1) Tell the user you are submitting their request.
2) Then output a machine-readable block (tags in English only):

<ticket>
<su>{short summary in user's language}</su>
<de>{full description in user's language}</de>
<ca>{category in English: Hardware, Software, Access, Network, Feedback, etc.}</ca>
</ticket>

3) After </ticket>, end with: [[ORDER_COMPLETED]]
Use [[ORDER_COMPLETED]] ONLY when a ticket is ready.

If the user only needs general help, answer normally without a ticket.
".

Definition summarySystemPrompt : string := "
You are a helpful assistant that summarizes chat history for another model.
Given the conversation between a user and an IT support bot, produce a concise summary
(200 words or fewer) of everything that has happened so far, including:
- The user's requirements, issues and context
- Any important preferences (language, contact details, device, location, etc.)
- Key decisions and resolutions reached so far

The summary should be in plain text and can be in the same language(s) as the conversation.
Do NOT add new information. Just summarize what is there.
".

Definition MAX_HISTORY_MESSAGES_BEFORE_SUMMARY : nat := 20.

Definition SUMMARY_MAX_OUTPUT_TOKENS : Z := 200.

(** The summary of a Jira issue when the reply carries none.  (The emoji
    stands here as its UTF-8 bytes; nothing looks inside this string.) *)
Definition default_jira_summary : string := "New support request 🛠️ from KunAI".

Definition system_message : Message := {| role := system; content := systemPrompt |}.

(** The request of the summariser (server.mjs 355-363). *)
Definition summary_request (nonSystemMessages : list Message) : Payload :=
  {| model := "gpt-4o-mini";
     input := {| role := system; content := summarySystemPrompt |}
                :: nonSystemMessages;
     max_output_tokens := Some SUMMARY_MAX_OUTPUT_TOKENS;
     temperature := Some (QArith_base.Qmake 2 10) |}.

(** The request of the chat turn (server.mjs 426-431). *)
Definition chat_request (context : list Message) : Payload :=
  {| model := "gpt-4o-mini";
     input := context;
     max_output_tokens := Some 400%Z;
     temperature := Some (QArith_base.Qmake 3 10) |}.

Definition summary_fallback : string :=
  "Summary of the previous conversation so far (details omitted).".

Definition reply_fallback : string := "Sorry, I had trouble answering that.".

(** ** The server (server.mjs 206-243, 303-500, 573-580) *)

Section Server.

Variable env : Env.

(** [await client.responses.create(payload)]. *)
Definition create (payload : Payload) : M Response :=
  fun w =>
    let w' := tick (emit (EvCreate payload) w) in
    match openai env (ticks w) payload with
    | inr response => (w', Return response)
    | inl err => (w', Throw err)
    end.

(** [await new Promise((r) => setTimeout(r, delayMs))]. *)
Definition sleep (delayMs : Z) : M unit := modify (emit (EvSleep delayMs)).

Definition try_catch {A} (body : M A) (handler : JsError -> M A) : M A :=
  fun w =>
    match body w with
    | (w', Throw err) => handler err w'
    | done => done
    end.

(** The [for] loop of [callOpenAIWithRetry] entered with counter [i];
    [left] is [retries - i], the number of iterations the loop condition
    still admits.  Falling out of the loop returns [undefined]. *)
Fixpoint retry_loop (payload : Payload) (retries left i : nat)
  : M (option Response) :=
  match left with
  | O => ret None
  | S left' =>
      try_catch
        (response <- create payload ;; ret (Some response))
        (fun err =>
           if bool_decide (status_of err = Some 429%Z)
              && (Z.of_nat i <? Z.of_nat retries - 1)%Z
           then
             let delayMs := ((Z.of_nat i + 1) * 1000)%Z in
             sleep delayMs ;;; retry_loop payload retries left' (S i)
           else throw err)
  end.

Definition callOpenAIWithRetry (payload : Payload) (retries : nat)
  : M (option Response) :=
  retry_loop payload retries retries O.

(** [response.output_text || fallback]; reading a property of [undefined]
    throws. *)
Definition output_text_or (response : option Response) (fallback : string)
  : M string :=
  match response with
  | Some r => ret (Js.or_else (output_text r) fallback)
  | None => throw TypeError
  end.

Definition getContextForSession (sessionId : JsValue) : M (list Message) :=
  fun w =>
    match sessions w !! sessionId with
    | Some context => (w, Return context)
    | None =>
        let context := [system_message] in
        (with_sessions <[sessionId := context]> w, Return context)
    end.

Definition summarizeContextIfNeeded (sessionId : JsValue) : M unit :=
  context <- gets (fun w => sessions w !! sessionId) ;;
  match context with
  | None => ret tt
  | Some [] => ret tt
  | Some (context0 :: nonSystemMessages) =>
      if (length nonSystemMessages <=? MAX_HISTORY_MESSAGES_BEFORE_SUMMARY)%nat
      then ret tt
      else
        summaryResponse <-
          callOpenAIWithRetry (summary_request nonSystemMessages) 3 ;;
        summaryText <-
          output_text_or summaryResponse summary_fallback ;;
        let newContext :=
          [ context0;
            {| role := assistant;
               content := "Conversation summary so far:" +:+ LF +:+ summaryText |} ] in
        modify (with_sessions <[sessionId := newContext]>)
  end.

(** [sendOrderEmail] inside its [try]: whether the mail goes out or not
    changes nothing the process keeps. *)
Definition sendOrderEmail (orderText : string) : M unit :=
  modify (fun w => tick (emit (EvMail orderText) w)).

(** [createJiraIssue] and the read of [jiraIssue.key]. *)
Definition createJiraIssue (summary description : string)
  : M (option (option string)) :=
  fun w =>
    (tick (emit (EvJira summary description) w),
     Return (jira env (ticks w) summary description)).

Record ChatResult := {
  reply : string;
  orderCompleted : bool;
  jiraIssueKey : option string
}.

(** [context] is the array object stored under [sid]: it is fetched after
    the summariser ran, and nothing rebinds [sid] before the last [push],
    so each [context.push] is a change of the stored sequence. *)
Definition handleChatMessage (message : string) (sessionId : JsValue)
  : M ChatResult :=
  let sid := if truthy sessionId then sessionId else JStr "default-session" in
  getContextForSession sid ;;;
  summarizeContextIfNeeded sid ;;;
  context <- getContextForSession sid ;;
  let context := context ++ [{| role := user; content := message |}] in
  modify (with_sessions <[sid := context]>) ;;;
  response <-
    callOpenAIWithRetry (chat_request context) 3 ;;
  assistantText <- output_text_or response reply_fallback ;;
  let completed := isOrderCompleted assistantText in
  let fields := extractTicketFields assistantText in
  let cleanedReply := stripTicketBlock (stripOrderCompletedTag assistantText) in
  let context := context ++ [{| role := assistant; content := cleanedReply |}] in
  modify (with_sessions <[sid := context]>) ;;;
  jiraIssueKey <-
    (if completed then
       sendOrderEmail cleanedReply ;;;
       let summary := Js.or_else (summary fields) default_jira_summary in
       let description :=
         Js.or_else (description fields)
           (cleanedReply +:+ LF +:+ LF +:+ "(Category: "
              +:+ Js.or_else (category fields) "Uncategorized" +:+ ")") in
       issue <- createJiraIssue summary description ;;
       match issue with
       | Some key =>
           modify (with_sessions <[sid := [system_message]]>) ;;; ret key
       | None => ret None
       end
     else ret None) ;;
  ret {| reply := cleanedReply; orderCompleted := completed;
         jiraIssueKey := jiraIssueKey |}.

(** The body of the [/api/reset] route. *)
Definition resetSession (sessionId : JsValue) : M unit :=
  fun w =>
    if truthy sessionId && bool_decide (is_Some (sessions w !! sessionId))
    then (with_sessions (delete sessionId) w, Return tt)
    else (w, Return tt).

End Server.

Arguments reply {_}.
Arguments orderCompleted {_}.
Arguments jiraIssueKey {_}.

(** ** Vocabulary of the properties *)

(** The backend answered with an error whose [status] is 429. *)
Definition rate_limited (answer : JsError + Response) : bool :=
  match answer with
  | inl err => bool_decide (status_of err = Some 429%Z)
  | inr _ => false
  end.

(** What [callOpenAIWithRetry] hands to its caller when [answer] ends it. *)
Definition handed_on (answer : JsError + Response) : Outcome (option Response) :=
  match answer with
  | inl err => Throw err
  | inr response => Return (Some response)
  end.

(** The events of [count] rate-limited attempts, each followed by its
    back-off, and of one last attempt; [first] is the loop counter of the
    first of them. *)
Definition attempts (payload : Payload) (first count : nat) : list Event :=
  flat_map
    (fun j => [EvCreate payload; EvSleep ((Z.of_nat j + 1) * 1000)])
    (seq first count)
  ++ [EvCreate payload].

Fixpoint delays (events : list Event) : list Z :=
  match events with
  | [] => []
  | EvSleep ms :: rest => ms :: delays rest
  | _ :: rest => delays rest
  end.

Fixpoint increasing (l : list Z) : bool :=
  match l with
  | a :: (b :: _) as rest => (a <? b)%Z && increasing rest
  | _ => true
  end.

Definition starts_with_system (context : list Message) : Prop :=
  exists rest, context = system_message :: rest.

(** Every stored session starts with the system instruction. *)
Definition store_ok (store : gmap JsValue (list Message)) : Prop :=
  forall sid context, store !! sid = Some context -> starts_with_system context.

Definition no_fields : TicketFields :=
  {| summary := None; description := None; category := None |}.

(** The text [a] put in front of the part a search skipped. *)
Definition prepend {R : Type} (a : string) (found : option (string * R))
  : option (string * R) :=
  match found with
  | Some (pre, r) => Some (a +:+ pre, r)
  | None => None
  end.

(** The literal [pat] does not occur in [s], in any letter case. *)
Definition absent (pat s : string) : Prop :=
  RegExp.search (RegExp.literal_ci pat) s = None.

(** No later code unit of [pat] equals its first one up to letter case, so
    two occurrences of [pat] cannot overlap. *)
Definition unbordered (pat : string) : bool :=
  match pat with
  | EmptyString => false
  | String p0 pat' => Js.all_chars (fun p => negb (RegExp.char_eq_ci p p0)) pat'
  end.

(** A code unit that is neither white space nor part of the completion
    marker: no match of the marker pattern can contain it. *)
Definition solid (c : ascii) : bool :=
  negb (Js.is_white_space c)
  && Js.all_chars (fun p => negb (RegExp.char_eq_ci p c)) "[[ORDER_COMPLETED]]".

(** The global replacement of [stripOrderCompletedTag], before its [trim]. *)
Definition scrub (s : string) : string :=
  RegExp.remove_all RegExp.marker_length O s.

(** Step 4 of [handleChatMessage] (server.mjs 451-452): the text shown to
    the user. *)
Definition sanitize (text : string) : string :=
  stripTicketBlock (stripOrderCompletedTag text).

(** The three tagged fields, one after the other. *)
Definition field_tags (su de ca : string) : string :=
  "<su>" +:+ su +:+ "</su>" +:+ "<de>" +:+ de +:+ "</de>"
  +:+ "<ca>" +:+ ca +:+ "</ca>".

(** A reply that ends with the completion marker, right after the fields
    wrapped in a [<ticket>] block as the system instruction asks. *)
Definition ticket_reply (pre su de ca : string) : string :=
  pre +:+ "<ticket>" +:+ field_tags su de ca +:+ "</ticket>"
  +:+ "[[ORDER_COMPLETED]]".

(** The same without the [<ticket>] wrapper. *)
Definition bare_reply (pre su de ca : string) : string :=
  pre +:+ field_tags su de ca +:+ "[[ORDER_COMPLETED]]".

(** The key [handleChatMessage] files a turn under (server.mjs 391). *)
Definition session_key (sessionId : JsValue) : JsValue :=
  if truthy sessionId then sessionId else JStr "default-session".

Definition user_message (text : string) : Message :=
  {| role := user; content := text |}.

Definition assistant_message (text : string) : Message :=
  {| role := assistant; content := text |}.

(** The message the summariser leaves in place of the history. *)
Definition summary_message (summaryText : string) : Message :=
  assistant_message ("Conversation summary so far:" +:+ LF +:+ summaryText).

(** What goes to Jira (server.mjs 475-478). *)
Definition jira_summary (fields : TicketFields) : string :=
  Js.or_else (summary fields) default_jira_summary.

Definition jira_description (fields : TicketFields) (cleanedReply : string) : string :=
  Js.or_else (description fields)
    (cleanedReply +:+ LF +:+ LF +:+ "(Category: "
       +:+ Js.or_else (category fields) "Uncategorized" +:+ ")").

(** Text without tag or marker brackets. *)
Definition plain (s : string) : bool := Js.lacks "<" s && Js.lacks "[" s.

(** [output_text] is missing or empty. *)
Definition silent (r : Response) : bool :=
  match output_text r with
  | Some (String _ _) => false
  | _ => true
  end.

(** ** Sample environments *)

Definition too_many_requests : JsError + Response := inl (ApiError (Some 429%Z)).

Definition says (text : string) : JsError + Response :=
  inr {| output_text := Some text |}.

(** A backend that gives the scripted answers in order and then fails with
    status 500; Jira answers [issue] every time. *)
Definition scripted (answers : list (JsError + Response))
  (issue : option (option string)) : Env :=
  {| openai := fun n _ => nth n answers (inl (ApiError (Some 500%Z)));
     jira := fun _ _ _ => issue |}.

Definition backend_recovers : Env :=
  scripted [too_many_requests; too_many_requests; says "ok"] None.

Definition backend_overloaded : Env :=
  scripted [too_many_requests; too_many_requests; too_many_requests] None.

Definition backend_down : Env := scripted [inl (ApiError (Some 503%Z))] None.

Definition backend_greets : Env :=
  scripted [says "Hello!"; says "Hello again!"] None.

Definition backend_summarises : Env := scripted [says "They greeted."] None.

Definition backend_silent : Env := scripted [inr {| output_text := None |}] None.

(** The backend answers with the completion marker and nothing else, and
    Jira is down. *)
Definition backend_marker_only : Env := scripted [says "[[ORDER_COMPLETED]]"] None.

(** The backend files a ticket, with and without the [<ticket>] wrapper. *)
Definition backend_files_ticket : Env :=
  scripted [says (ticket_reply "Done. " "Printer" " It is dead " "Hardware")]
    (Some (Some "IT-7")).

Definition backend_files_bare : Env :=
  scripted [says (bare_reply "Done. " "X" "Y" "Z")] (Some (Some "IT-8")).

Definition hello : Message := {| role := user; content := "hello" |}.

(** A session of 21 messages after the system instruction. *)
Definition long_session : list Message := system_message :: repeat hello 21.

Definition long_world : World :=
  {| sessions := {[ JStr "s1" := long_session ]}; ticks := O; trace := [] |}.

(** ** The sentiment classifier and the routes (server.mjs 245-267, 502-580) *)

Definition dquote : string := String (ascii_of_N 34) EmptyString.

Definition sentimentSystemPrompt : string :=
  "
You are a toxicity classifier.
Classify the user's message into one of these categories:

- " +:+ dquote +:+ "safe" +:+ dquote +:+ " (polite, neutral, friendly, or harmless)
- " +:+ dquote +:+ "rude" +:+ dquote +:+ " (angry, disrespectful, unfriendly, using strong negative tone)
- " +:+ dquote +:+ "offensive" +:+ dquote +:+ " (insults, harassment, hate, slurs, threats, explicit abuse)

Respond with exactly one of these words.
No explanations. No additional text.
".

(** The request of the classifier (server.mjs 250-256). *)
Definition sentiment_request (message : string) : Payload :=
  {| model := "gpt-4o-mini";
     input := [ {| role := system; content := sentimentSystemPrompt |};
                {| role := user; content := message |} ];
     max_output_tokens := None;
     temperature := None |}.

(** [response.output_text?.trim().toLowerCase() || "safe"], then the three
    [includes] tests in the order of the source. *)
Definition sentiment_of (output : option string) : string :=
  let raw :=
    Js.or_else
      (match output with
       | Some text => Some (Js.toLowerCase (Js.trim text))
       | None => None
       end)
      "safe" in
  if Js.includes raw "rude" then "rude"
  else if Js.includes raw "offensive" then "offensive"
  else if Js.includes raw "safe" then "safe"
  else "safe".

Arguments reply : clear implicits.
Arguments orderCompleted : clear implicits.
Arguments jiraIssueKey : clear implicits.

(** What [req.body] holds of a JSON chat request whose [message], when
    present, is a string. *)
Record ChatBody := {
  body_message : option string;
  body_sessionId : JsValue
}.

Inductive ChatPayload :=
| ResultJson (result : ChatResult)
| ErrorJson (error : string) (detail : string).

Record ChatReply := {
  chat_status : Z;
  chat_payload : ChatPayload
}.

(** The form fields Twilio posts. *)
Record WhatsAppBody := {
  From : option string;
  Body : option string
}.

Inductive WebhookReply :=
| Twiml (message : string)
| ServerError500.

Definition from_value (from : option string) : JsValue :=
  match from with
  | Some s => JStr s
  | None => JUndefined
  end.

(** The text appended for WhatsApp when a ticket was filed (server.mjs 555;
    the characters outside the Latin-1 range stand as their UTF-8 bytes). *)
Definition ticket_note (jiraIssueKey : string) : string :=
  LF +:+ LF +:+ "✅ Tu ticket ha sido creado." +:+ LF
  +:+ "Número de ticket: *" +:+ jiraIssueKey +:+ "*".

Section Routes.

Variable env : Env.

(** [err.code] of a thrown value; the error type keeps only [status]. *)
Variable code_of : JsError -> option string.

Definition getSentimentForMessage (message : string) : M string :=
  response <- callOpenAIWithRetry env (sentiment_request message) 3 ;;
  match response with
  | Some r => ret (sentiment_of (output_text r))
  | None => throw TypeError
  end.

(** The handler of [POST /api/chat]; it always answers. *)
Definition chatRoute (body : ChatBody) : World -> World * ChatReply :=
  fun w =>
    match body_message body with
    | None | Some EmptyString =>
        (w, {| chat_status := 400;
               chat_payload := ErrorJson "Missing 'message' in body" "" |})
    | Some message =>
        match handleChatMessage env message (body_sessionId body) w with
        | (w', Return result) =>
            (w', {| chat_status := 200; chat_payload := ResultJson result |})
        | (w', Throw err) =>
            if bool_decide (status_of err = Some 429%Z)
               || bool_decide (code_of err = Some "rate_limit_exceeded")
            then
              (w', {| chat_status := 429;
                      chat_payload :=
                        ErrorJson "rate_limited"
                          "I’m getting a bit overwhelmed 😅. Try again shortly!" |})
            else
              (w', {| chat_status := 500;
                      chat_payload := ErrorJson "Server error" "Unexpected error" |})
        end
    end.

(** The handler of [POST /whatsapp/webhook]. *)
Definition whatsappRoute (form : WhatsAppBody) : World -> World * WebhookReply :=
  fun w =>
    let from := From form in
    let body := Js.or_else (Body form) "" in
    let sessionId := from_value from in
    match handleChatMessage env body sessionId w with
    | (w', Return result) =>
        let finalReply :=
          match orderCompleted result, jiraIssueKey result with
          | true, Some (String c key) => reply result +:+ ticket_note (String c key)
          | _, _ => reply result
          end in
        (w', Twiml finalReply)
    | (w', Throw _) => (w', ServerError500)
    end.

End Routes.

(** What a turn sends out besides backend requests. *)
Definition is_outgoing (e : Event) : bool :=
  match e with
  | EvMail _ | EvJira _ _ => true
  | _ => false
  end.

Definition outbox (events : list Event) : list Event := filter is_outgoing events.

Fixpoint total (l : list Z) : Z :=
  match l with
  | [] => 0
  | a :: rest => a + total rest
  end.

(** No stored session holds more than [n] messages. *)
Definition store_within (n : nat) (store : gmap JsValue (list Message)) : Prop :=
  forall sid context, store !! sid = Some context -> length context <= n.

(** [s] is a tail of [text]. *)
Definition tail_of (s text : string) : Prop := exists skipped, text = skipped +:+ s.

Definition backend_always_overloaded : Env :=
  {| openai := fun _ _ => too_many_requests; jira := fun _ _ _ => None |}.

Definition no_code : JsError -> option string := fun _ => None.


(** * Properties *)

Local Arguments String.append !_ _ : simpl nomatch.

(** ** Code units *)

Lemma char_eq_ci_refl (c : ascii) : RegExp.char_eq_ci c c = true.
Proof. unfold RegExp.char_eq_ci. apply Ascii.eqb_refl. Qed.

Lemma char_eq_ci_lt (c : ascii) : RegExp.char_eq_ci "<" c = Ascii.eqb c "<".
Proof. destruct c as [[] [] [] [] [] [] [] []]; reflexivity. Qed.

Lemma char_eq_ci_bracket (c : ascii) : RegExp.char_eq_ci "[" c = Ascii.eqb c "[".
Proof. destruct c as [[] [] [] [] [] [] [] []]; reflexivity. Qed.

(** ** Strings *)

Lemma append_empty_r (s : string) : s +:+ "" = s.
Proof. induction s as [|c s IH]; simpl; [reflexivity | now rewrite IH]. Qed.

Lemma append_assoc (a b c : string) : (a +:+ b) +:+ c = a +:+ b +:+ c.
Proof. induction a as [|x a IH]; simpl; [reflexivity | now rewrite IH]. Qed.

Lemma length_append (a b : string) :
  String.length (a +:+ b) = String.length a + String.length b.
Proof. induction a as [|x a IH]; simpl; [reflexivity | now rewrite IH]. Qed.

Section AllChars.

Variable P : ascii -> bool.

Lemma all_chars_app (a b : string) :
  Js.all_chars P (a +:+ b) = Js.all_chars P a && Js.all_chars P b.
Proof.
  induction a as [|c a IH]; simpl; [reflexivity|].
  now rewrite IH, andb_assoc.
Qed.

Lemma all_chars_trimStart (s : string) :
  Js.all_chars P s = true -> Js.all_chars P (Js.trimStart s) = true.
Proof.
  induction s as [|c s IH]; simpl; [trivial|].
  intros H. destruct (Js.is_white_space c); [|exact H].
  apply andb_prop in H. now apply IH.
Qed.

Lemma all_chars_trimEnd (s : string) :
  Js.all_chars P s = true -> Js.all_chars P (Js.trimEnd s) = true.
Proof.
  induction s as [|c s IH]; simpl; [trivial|].
  intros H. apply andb_prop in H. destruct H as [Hc Hs].
  specialize (IH Hs).
  destruct (Js.trimEnd s) as [|d r].
  - destruct (Js.is_white_space c); simpl; [reflexivity | now rewrite Hc].
  - cbn [Js.all_chars]. now rewrite Hc.
Qed.

Lemma all_chars_trim (s : string) :
  Js.all_chars P s = true -> Js.all_chars P (Js.trim s) = true.
Proof. intros H. now apply all_chars_trimEnd, all_chars_trimStart. Qed.

Lemma all_chars_remove_all (len : string -> option nat) (s : string) :
  Js.all_chars P s = true ->
  forall skip, Js.all_chars P (RegExp.remove_all len skip s) = true.
Proof.
  induction s as [|c s IH]; simpl; [trivial|].
  intros H skip. apply andb_prop in H. destruct H as [Hc Hs].
  destruct skip as [|k]; [|now apply IH].
  destruct (len (String c s)) as [[|k]|]; simpl; try now apply IH.
  all: now rewrite Hc, IH.
Qed.

End AllChars.

(** ** Trimming *)

Lemma trimStart_solid (a : string) (c : ascii) (b : string) :
  Js.is_white_space c = false ->
  Js.trimStart (a +:+ String c b) = Js.trimStart a +:+ String c b.
Proof.
  intros Hc. induction a as [|x a IH]; simpl.
  - now rewrite Hc.
  - destruct (Js.is_white_space x); [exact IH | reflexivity].
Qed.

Lemma trimEnd_solid (a : string) (c : ascii) (b : string) :
  Js.is_white_space c = false ->
  Js.trimEnd (a +:+ String c b) = a +:+ String c (Js.trimEnd b).
Proof.
  intros Hc. induction a as [|x a IH]; simpl.
  - rewrite Hc. now destruct (Js.trimEnd b).
  - rewrite IH. now destruct a.
Qed.

Lemma trimStart_idem (s : string) : Js.trimStart (Js.trimStart s) = Js.trimStart s.
Proof.
  induction s as [|c s IH]; simpl; [reflexivity|].
  destruct (Js.is_white_space c) eqn:E; [exact IH|].
  simpl. now rewrite E.
Qed.

Lemma trim_trimStart (s : string) : Js.trim (Js.trimStart s) = Js.trim s.
Proof. unfold Js.trim. now rewrite trimStart_idem. Qed.

(** ** Literals and searches *)

Lemma literal_ci_self (pat s : string) : RegExp.literal_ci pat (pat +:+ s) = Some s.
Proof.
  induction pat as [|p pat IH]; simpl; [reflexivity|].
  now rewrite char_eq_ci_refl.
Qed.

Lemma literal_ci_app_solid (pat : string) (c : ascii) :
  Js.all_chars (fun p => negb (RegExp.char_eq_ci p c)) pat = true ->
  forall x b,
    RegExp.literal_ci pat (x +:+ String c b)
    = option_map (fun r => r +:+ String c b) (RegExp.literal_ci pat x).
Proof.
  induction pat as [|p pat IH]; simpl; intros H x b; [reflexivity|].
  apply andb_prop in H. destruct H as [Hp Hpat].
  apply negb_true_iff in Hp.
  destruct x as [|y x]; simpl.
  - now rewrite Hp.
  - destruct (RegExp.char_eq_ci p y); [now apply IH | reflexivity].
Qed.

Lemma literal_lt_solid (pat : string) (c : ascii) (r : string) :
  negb (Ascii.eqb c "<") = true ->
  RegExp.literal_ci (String "<" pat) (String c r) = None.
Proof.
  intros H. apply negb_true_iff in H. simpl. now rewrite char_eq_ci_lt, H.
Qed.

Lemma tag_pair_solid (tag : string) (c : ascii) (r : string) :
  negb (Ascii.eqb c "<") = true ->
  RegExp.tag_pair tag (String c r) = None.
Proof.
  intros H. unfold RegExp.tag_pair.
  change ("<" +:+ tag +:+ ">") with (String "<" (tag +:+ ">")).
  now rewrite literal_lt_solid.
Qed.

Lemma tag_pair_open (tag rest : string) :
  RegExp.tag_pair tag (("<" +:+ tag +:+ ">") +:+ rest)
  = RegExp.lazy_until ("</" +:+ tag +:+ ">") rest.
Proof. unfold RegExp.tag_pair. now rewrite literal_ci_self. Qed.

Section Search.

Context {R : Type}.
Variable m : string -> option R.

Lemma prepend_empty (found : option (string * R)) : prepend "" found = found.
Proof. now destruct found as [[pre r]|]. Qed.

Lemma search_here (s : string) (r : R) :
  m s = Some r -> RegExp.search m s = Some ("", r).
Proof. intros H. destruct s; simpl; now rewrite H. Qed.

Lemma search_next (c : ascii) (s : string) :
  m (String c s) = None ->
  RegExp.search m (String c s) = prepend (String c "") (RegExp.search m s).
Proof. intros H. simpl. rewrite H. now destruct (RegExp.search m s) as [[pre r]|]. Qed.

Variable P : ascii -> bool.
Hypothesis m_fails : forall c r, P c = true -> m (String c r) = None.

Lemma search_skip (a s : string) :
  Js.all_chars P a = true ->
  RegExp.search m (a +:+ s) = prepend a (RegExp.search m s).
Proof.
  induction a as [|c a IH]; simpl; intros H.
  - symmetry. apply prepend_empty.
  - apply andb_prop in H. destruct H as [Hc Ha].
    rewrite (m_fails _ _ Hc), (IH Ha).
    now destruct (RegExp.search m s) as [[pre r]|].
Qed.

Lemma search_none (s : string) :
  m "" = None -> Js.all_chars P s = true -> RegExp.search m s = None.
Proof.
  intros H0 H. rewrite <- (append_empty_r s), (search_skip _ _ H).
  simpl. now rewrite H0.
Qed.

End Search.

Lemma absent_plain (pat s : string) :
  Js.lacks "<" s = true -> absent (String "<" pat) s.
Proof.
  intros H. unfold absent.
  apply (search_none _ _ (literal_lt_solid pat)); [reflexivity | exact H].
Qed.

Lemma absent_app_plain (pat a s : string) :
  Js.lacks "<" a = true -> absent (String "<" pat) s ->
  absent (String "<" pat) (a +:+ s).
Proof.
  unfold absent. intros Ha Hs.
  now rewrite (search_skip _ _ (literal_lt_solid pat) _ _ Ha), Hs.
Qed.

Lemma absent_cons (pat : string) (c : ascii) (s : string) :
  RegExp.literal_ci pat (String c s) = None -> absent pat s ->
  absent pat (String c s).
Proof. unfold absent. intros H Hs. now rewrite search_next, Hs. Qed.

Lemma absent_cons_inv (pat : string) (c : ascii) (s : string) :
  absent pat (String c s) ->
  RegExp.literal_ci pat (String c s) = None /\ absent pat s.
Proof.
  unfold absent. simpl.
  destruct (RegExp.literal_ci pat (String c s)); [discriminate|].
  destruct (RegExp.search (RegExp.literal_ci pat) s) as [[pre r]|];
    [discriminate | auto].
Qed.

(** The lazy star stops at the first occurrence of the literal. *)
Lemma lazy_until_first (pat body rest : string) :
  unbordered pat = true -> absent pat body ->
  RegExp.lazy_until pat (body +:+ pat +:+ rest) = Some (body, rest).
Proof.
  destruct pat as [|p0 pat]; [discriminate|].
  unfold unbordered, RegExp.lazy_until. intros Hpat.
  induction body as [|x body IH]; intros Hbody.
  - apply search_here. exact (literal_ci_self (String p0 pat) rest).
  - apply absent_cons_inv in Hbody. destruct Hbody as [Hx Hbody].
    change (String x body +:+ ?r) with (String x (body +:+ r)).
    rewrite search_next.
    + now rewrite (IH Hbody).
    + change (String p0 pat +:+ rest) with (String p0 (pat +:+ rest)).
      simpl in Hx |- *.
      destruct (RegExp.char_eq_ci p0 x); [|reflexivity].
      rewrite (literal_ci_app_solid _ _ Hpat). now rewrite Hx.
Qed.

(** ** What [get] sees *)

Lemma get_here (tag s inner rest : string) :
  RegExp.tag_pair tag s = Some (inner, rest) -> get s tag = Some (Js.trim inner).
Proof. intros H. unfold get. now rewrite (search_here _ _ _ H). Qed.

Lemma get_next (tag : string) (c : ascii) (s : string) :
  RegExp.tag_pair tag (String c s) = None -> get (String c s) tag = get s tag.
Proof.
  intros H. unfold get. rewrite (search_next _ _ _ H).
  now destruct (RegExp.search (RegExp.tag_pair tag) s) as [[pre [inner rest]]|].
Qed.

Lemma get_skip (tag a s : string) :
  Js.lacks "<" a = true -> get (a +:+ s) tag = get s tag.
Proof.
  intros H. unfold get. rewrite (search_skip _ _ (tag_pair_solid tag) _ _ H).
  now destruct (RegExp.search (RegExp.tag_pair tag) s) as [[pre [inner rest]]|].
Qed.

Lemma get_plain (tag s : string) : Js.lacks "<" s = true -> get s tag = None.
Proof.
  intros H. unfold get.
  now rewrite (search_none _ _ (tag_pair_solid tag) s eq_refl H).
Qed.

(** ** Removing the completion marker *)

Lemma marker_length_plain (s : string) :
  Js.lacks "[" s = true -> RegExp.marker_length s = None.
Proof.
  intros H. unfold RegExp.marker_length.
  apply all_chars_trimStart in H.
  destruct (Js.trimStart s) as [|c r]; [reflexivity|].
  simpl in H. apply andb_prop in H. destruct H as [Hc _].
  apply negb_true_iff in Hc.
  simpl. now rewrite char_eq_ci_bracket, Hc.
Qed.

Lemma scrub_plain (s : string) : Js.lacks "[" s = true -> scrub s = s.
Proof.
  unfold scrub. induction s as [|c s IH]; intros H; [reflexivity|].
  simpl. rewrite (marker_length_plain _ H).
  simpl in H. apply andb_prop in H. destruct H as [_ Hs].
  now rewrite (IH Hs).
Qed.

Lemma marker_length_le (s : string) (n : nat) :
  RegExp.marker_length s = Some n -> n <= String.length s.
Proof.
  unfold RegExp.marker_length.
  destruct (RegExp.literal_ci _ _); [|discriminate].
  intros [= <-]. lia.
Qed.

Lemma marker_length_solid (a : string) (c : ascii) (b : string) :
  solid c = true ->
  RegExp.marker_length (a +:+ String c b) = RegExp.marker_length a.
Proof.
  unfold solid. intros H. apply andb_prop in H. destruct H as [Hws Hc].
  apply negb_true_iff in Hws.
  unfold RegExp.marker_length.
  rewrite (trimStart_solid _ _ _ Hws), (literal_ci_app_solid _ _ Hc).
  destruct (RegExp.literal_ci _ (Js.trimStart a)) as [r|]; simpl; [|reflexivity].
  rewrite (trimStart_solid _ _ _ Hws), !length_append. f_equal. lia.
Qed.

(** A solid code unit splits the scan in two independent scans. *)
Lemma remove_all_solid (c : ascii) (b : string) :
  solid c = true ->
  forall a skip, skip <= String.length a ->
    RegExp.remove_all RegExp.marker_length skip (a +:+ String c b)
    = RegExp.remove_all RegExp.marker_length skip a +:+ String c (scrub b).
Proof.
  intros Hc. induction a as [|x a IH]; intros skip Hskip.
  - assert (skip = 0) as -> by (simpl in Hskip; lia).
    pose proof (marker_length_solid "" c b Hc) as H.
    simpl in H |- *. now rewrite H.
  - change (String x a +:+ String c b) with (String x (a +:+ String c b)).
    simpl in Hskip. destruct skip as [|k]; simpl.
    + pose proof (marker_length_solid (String x a) c b Hc) as H.
      simpl in H. rewrite H.
      destruct (RegExp.marker_length (String x a)) as [[|k]|] eqn:E.
      * now rewrite IH by lia.
      * apply marker_length_le in E. simpl in E. apply IH. lia.
      * now rewrite IH by lia.
    + apply IH. lia.
Qed.

Lemma scrub_solid (a : string) (c : ascii) (b : string) :
  solid c = true -> scrub (a +:+ String c b) = scrub a +:+ String c (scrub b).
Proof. intros Hc. apply (remove_all_solid c b Hc). lia. Qed.

(** ** Sanitising a reply that carries one ticket block *)

(** Whatever stands in a [<ticket>] block goes; what stood before and after
    it stays, each part with its completion markers removed. *)
Lemma sanitize_block (pre body post : string) :
  Js.lacks "<" pre = true ->
  Js.lacks "[" body = true ->
  absent "</ticket>" body ->
  stripTicketBlock
    (stripOrderCompletedTag (pre +:+ "<ticket>" +:+ body +:+ "</ticket>" +:+ post))
  = Js.trim (Js.trimStart (scrub pre) +:+ Js.trimEnd (scrub post)).
Proof.
  intros Hpre Hbody Hclose.
  unfold stripOrderCompletedTag. fold (scrub (pre +:+ "<ticket>" +:+ body +:+ "</ticket>" +:+ post)).
  change (pre +:+ "<ticket>" +:+ body +:+ "</ticket>" +:+ post)
    with (pre +:+ String "<" ("ticket" +:+ String ">"
            (body +:+ String "<" ("/ticket" +:+ String ">" post)))).
  rewrite !scrub_solid by reflexivity.
  rewrite (scrub_plain body Hbody).
  change (scrub "ticket") with "ticket". change (scrub "/ticket") with "/ticket".
  unfold Js.trim at 1.
  rewrite trimStart_solid by reflexivity.
  rewrite !trimEnd_solid by reflexivity.
  unfold stripTicketBlock.
  rewrite (search_skip _ _ (tag_pair_solid "ticket")).
  2:{ apply all_chars_trimStart, all_chars_remove_all, Hpre. }
  assert (Hm : forall rest,
    RegExp.tag_pair "ticket"
      (String "<" ("ticket" +:+ String ">"
         (body +:+ String "<" ("/ticket" +:+ String ">" rest))))
    = Some (body, rest)).
  { intros rest.
    exact (eq_trans (tag_pair_open "ticket" _)
             (lazy_until_first "</ticket>" body rest eq_refl Hclose)). }
  rewrite (search_here _ _ _ (Hm _)). simpl prepend.
  now rewrite append_empty_r.
Qed.

(** The same when the block may hold completion markers: what counts is
    that no closing ticket tag stands in it once they are removed. *)
Lemma sanitize_block_scrubbed (pre body post : string) :
  Js.lacks "<" pre = true ->
  absent "</ticket>" (scrub body) ->
  stripTicketBlock
    (stripOrderCompletedTag (pre +:+ "<ticket>" +:+ body +:+ "</ticket>" +:+ post))
  = Js.trim (Js.trimStart (scrub pre) +:+ Js.trimEnd (scrub post)).
Proof.
  intros Hpre Hclose.
  unfold stripOrderCompletedTag.
  fold (scrub (pre +:+ "<ticket>" +:+ body +:+ "</ticket>" +:+ post)).
  change (pre +:+ "<ticket>" +:+ body +:+ "</ticket>" +:+ post)
    with (pre +:+ String "<" ("ticket" +:+ String ">"
            (body +:+ String "<" ("/ticket" +:+ String ">" post)))).
  rewrite !scrub_solid by reflexivity.
  change (scrub "ticket") with "ticket". change (scrub "/ticket") with "/ticket".
  unfold Js.trim at 1.
  rewrite trimStart_solid by reflexivity.
  rewrite !trimEnd_solid by reflexivity.
  unfold stripTicketBlock.
  rewrite (search_skip _ _ (tag_pair_solid "ticket")).
  2:{ apply all_chars_trimStart, all_chars_remove_all, Hpre. }
  assert (Hm : forall rest,
    RegExp.tag_pair "ticket"
      (String "<" ("ticket" +:+ String ">"
         (scrub body +:+ String "<" ("/ticket" +:+ String ">" rest))))
    = Some (scrub body, rest)).
  { intros rest.
    exact (eq_trans (tag_pair_open "ticket" _)
             (lazy_until_first "</ticket>" (scrub body) rest eq_refl Hclose)). }
  rewrite (search_here _ _ _ (Hm _)). simpl prepend.
  now rewrite append_empty_r.
Qed.

(** ** The fields of a ticket reply *)

Lemma toLowerCase_app (a b : string) :
  Js.toLowerCase (a +:+ b) = Js.toLowerCase a +:+ Js.toLowerCase b.
Proof. induction a as [|c a IH]; simpl; [reflexivity | now rewrite IH]. Qed.

Lemma includes_app_r (a b pat : string) :
  Js.includes b pat = true -> Js.includes (a +:+ b) pat = true.
Proof.
  intros H. induction a as [|c a IH]; simpl; [exact H|].
  rewrite IH. apply orb_true_r.
Qed.

Lemma includes_plain (c : ascii) (pat s : string) :
  Js.lacks c s = true -> Js.includes s (String c pat) = false.
Proof.
  induction s as [|x s IH]; simpl; [reflexivity|].
  intros H. apply andb_prop in H. destruct H as [Hx Hs].
  apply negb_true_iff in Hx. rewrite Ascii.eqb_sym in Hx.
  now rewrite Hx, (IH Hs).
Qed.

Lemma lacks_bracket_toLowerCase (s : string) :
  Js.lacks "[" s = true -> Js.lacks "[" (Js.toLowerCase s) = true.
Proof.
  unfold Js.lacks. induction s as [|c s IH]; simpl; [trivial|].
  intros H. apply andb_prop in H. destruct H as [Hc Hs].
  rewrite (IH Hs), andb_true_r.
  revert Hc. clear. destruct c as [[] [] [] [] [] [] [] []]; now vm_compute.
Qed.

Lemma isOrderCompleted_plain (s : string) :
  Js.lacks "[" s = true -> isOrderCompleted s = false.
Proof.
  intros H. unfold isOrderCompleted.
  now apply includes_plain, lacks_bracket_toLowerCase.
Qed.

Ltac walk_get :=
  repeat first
    [ rewrite get_skip by assumption
    | progress cbn [String.append]
    | rewrite get_next by reflexivity ].

(** Removing completion markers from the three tagged fields is removing
    them from each field text: no match of the marker pattern reaches across
    a tag. *)
Lemma scrub_field_tags (su de ca : string) :
  scrub (field_tags su de ca) = field_tags (scrub su) (scrub de) (scrub ca).
Proof.
  unfold field_tags.
  change ("<su>" +:+ su +:+ "</su>" +:+ "<de>" +:+ de +:+ "</de>"
          +:+ "<ca>" +:+ ca +:+ "</ca>")
    with ("" +:+ String "<" ("su" +:+ String ">"
            (su +:+ String "<" ("/su" +:+ String ">"
              ("" +:+ String "<" ("de" +:+ String ">"
                (de +:+ String "<" ("/de" +:+ String ">"
                  ("" +:+ String "<" ("ca" +:+ String ">"
                    (ca +:+ String "<" ("/ca" +:+ String ">" "")))))))))))).
  rewrite !scrub_solid by reflexivity.
  reflexivity.
Qed.

Lemma absent_field_tags (su de ca : string) :
  Js.lacks "<" su = true -> Js.lacks "<" de = true -> Js.lacks "<" ca = true ->
  absent "</ticket>" (field_tags su de ca).
Proof.
  intros Hsu Hde Hca. unfold field_tags.
  repeat first
    [ apply absent_app_plain; [assumption|]
    | progress cbn [String.append]
    | apply absent_cons; [reflexivity|]
    | reflexivity ].
Qed.

Lemma get_open (tag inner rest : string) :
  unbordered ("</" +:+ tag +:+ ">") = true ->
  Js.lacks "<" inner = true ->
  get (("<" +:+ tag +:+ ">") +:+ inner +:+ ("</" +:+ tag +:+ ">") +:+ rest) tag
  = Some (Js.trim inner).
Proof.
  intros Htag Hinner. apply (get_here tag _ inner rest).
  rewrite tag_pair_open. apply lazy_until_first; [exact Htag|].
  change ("</" +:+ tag +:+ ">") with (String "<" ("/" +:+ tag +:+ ">")).
  now apply absent_plain.
Qed.

Lemma fields_of_ticket_reply (pre su de ca : string) :
  Js.lacks "<" pre = true ->
  Js.lacks "<" su = true -> Js.lacks "<" de = true -> Js.lacks "<" ca = true ->
  extractTicketFields (ticket_reply pre su de ca)
  = {| summary := Some (Js.trim su);
       description := Some (Js.trim de);
       category := Some (Js.trim ca) |}.
Proof.
  intros Hpre Hsu Hde Hca.
  unfold extractTicketFields, ticket_reply, field_tags.
  rewrite !append_assoc.
  f_equal; walk_get.
  - exact (get_open "su" su _ eq_refl Hsu).
  - exact (get_open "de" de _ eq_refl Hde).
  - exact (get_open "ca" ca _ eq_refl Hca).
Qed.

Lemma isOrderCompleted_ticket_reply (pre su de ca : string) :
  isOrderCompleted (ticket_reply pre su de ca) = true.
Proof.
  unfold isOrderCompleted, ticket_reply, field_tags.
  rewrite !append_assoc, !toLowerCase_app.
  repeat (apply includes_app_r). reflexivity.
Qed.

Lemma sanitize_ticket_reply (pre su de ca : string) :
  Js.lacks "<" pre = true -> Js.lacks "[" pre = true ->
  Js.lacks "<" su = true -> Js.lacks "<" de = true -> Js.lacks "<" ca = true ->
  sanitize (ticket_reply pre su de ca) = Js.trim pre.
Proof.
  intros Hpre Hpre' Hsu Hde Hca.
  unfold sanitize, ticket_reply.
  rewrite sanitize_block_scrubbed; [| assumption |].
  - rewrite (scrub_plain pre Hpre').
    change (Js.trimEnd (scrub "[[ORDER_COMPLETED]]")) with "".
    now rewrite append_empty_r, trim_trimStart.
  - rewrite scrub_field_tags.
    apply absent_field_tags; unfold scrub; now apply all_chars_remove_all.
Qed.

(** ** The retrying backend call *)

Lemma delays_app (a b : list Event) : delays (a ++ b) = delays a ++ delays b.
Proof.
  induction a as [|e a IH]; simpl; [reflexivity|].
  destruct e; simpl; now rewrite IH.
Qed.

Lemma delays_attempts (payload : Payload) (count first : nat) :
  delays (attempts payload first count)
  = map (fun j => (Z.of_nat j + 1) * 1000)%Z (seq first count).
Proof.
  unfold attempts. revert first.
  induction count as [|count IH]; intros first; simpl; [reflexivity|].
  f_equal. apply IH.
Qed.

Lemma increasing_backoff (count first : nat) :
  increasing (map (fun j => (Z.of_nat j + 1) * 1000)%Z (seq first count)) = true.
Proof.
  revert first. induction count as [|count IH]; intros first; [reflexivity|].
  specialize (IH (S first)).
  destruct count as [|count]; [reflexivity|].
  change (seq first (S (S count))) with (first :: seq (S first) (S count)).
  rewrite map_cons.
  change (seq (S first) (S count)) with (S first :: seq (S (S first)) count) in *.
  rewrite map_cons in *.
  cbn [increasing]. cbn [increasing] in IH. rewrite IH, andb_true_r.
  apply Z.ltb_lt. lia.
Qed.

Section Gateway.

Variable env : Env.
Variable payload : Payload.
Variable retries : nat.

Lemma retry_loop_run (k : nat) :
  forall left i w,
    i + left = retries ->
    k < left ->
    (forall j, j < k -> rate_limited (openai env (ticks w + j) payload) = true) ->
    rate_limited (openai env (ticks w + k) payload) = false \/ i + k + 1 = retries ->
    retry_loop env payload retries left i w
    = ({| sessions := sessions w;
          ticks := ticks w + k + 1;
          trace := trace w ++ attempts payload i k |},
       handed_on (openai env (ticks w + k) payload)).
Proof.
  induction k as [|k IH]; intros left i w Hleft Hk Hbefore Hlast;
    (destruct left as [|left]; [lia|]).
  - rewrite Nat.add_0_r in *.
    cbn [retry_loop]. unfold try_catch, bind, create.
    destruct (openai env (ticks w) payload) as [err|response] eqn:E; cbn.
    + assert (bool_decide (status_of err = Some 429%Z)
              && (Z.of_nat i <? Z.of_nat retries - 1)%Z = false) as ->.
      { destruct Hlast as [H|H]; [cbn in H; now rewrite H|].
        apply andb_false_iff. right. apply Z.ltb_ge. lia. }
      unfold throw, tick, emit, attempts. cbn. do 2 f_equal. lia.
    + unfold ret, tick, emit, attempts. cbn. do 2 f_equal. lia.
  - pose proof (Hbefore 0 ltac:(lia)) as H0. rewrite Nat.add_0_r in H0.
    cbn [retry_loop]. unfold try_catch, create. unfold bind at 1.
    destruct (openai env (ticks w) payload) as [err|response] eqn:E;
      [|discriminate].
    cbn in H0. cbn. rewrite H0.
    assert ((Z.of_nat i <? Z.of_nat retries - 1)%Z = true) as ->
      by (apply Z.ltb_lt; lia).
    cbn.
    rewrite (IH left (S i)); cbn; try lia.
    + replace (S (ticks w + k)) with (ticks w + S k) by lia.
      do 2 f_equal; [lia|].
      rewrite <- !app_assoc. reflexivity.
    + intros j Hj. replace (S (ticks w + j)) with (ticks w + S j) by lia.
      apply Hbefore. lia.
    + replace (S (ticks w + k)) with (ticks w + S k) by lia.
      destruct Hlast as [H|H]; [now left | right; lia].
Qed.

Lemma retry_loop_sessions :
  forall left i w, sessions (retry_loop env payload retries left i w).1 = sessions w.
Proof.
  induction left as [|left IH]; intros i w; [reflexivity|].
  cbn [retry_loop]. unfold try_catch, bind, create.
  destruct (openai env (ticks w) payload) as [err|response]; cbn; [|reflexivity].
  destruct (_ && _); [|reflexivity].
  unfold bind, sleep, modify. now rewrite IH.
Qed.

Lemma retry_loop_defined :
  forall left i w,
    i + left = retries -> 0 < left ->
    (retry_loop env payload retries left i w).2 <> Return None.
Proof.
  induction left as [|left IH]; intros i w Hsum Hleft; [lia|].
  cbn [retry_loop]. unfold try_catch, bind, create.
  destruct (openai env (ticks w) payload) as [err|response]; cbn; [|discriminate].
  destruct (_ && _) eqn:E; [|discriminate].
  unfold bind, sleep, modify.
  apply andb_prop in E. destruct E as [_ E]. apply Z.ltb_lt in E.
  apply IH; lia.
Qed.

End Gateway.

(** ** The session store *)

Lemma getContext_existing (sid : JsValue) (w : World) (context : list Message) :
  sessions w !! sid = Some context ->
  getContextForSession sid w = (w, Return context).
Proof. intros H. unfold getContextForSession. now rewrite H. Qed.

Lemma getContext_fresh (sid : JsValue) (w : World) :
  sessions w !! sid = None ->
  getContextForSession sid w
  = (with_sessions <[sid := [system_message]]> w, Return [system_message]).
Proof. intros H. unfold getContextForSession. now rewrite H. Qed.

Lemma getContext_stored (sid : JsValue) (w : World) :
  exists w' context,
    getContextForSession sid w = (w', Return context)
    /\ sessions w' !! sid = Some context.
Proof.
  destruct (sessions w !! sid) as [context|] eqn:E.
  - exists w, context. split; [now apply getContext_existing | exact E].
  - eexists _, _. split; [now apply getContext_fresh|].
    simpl. apply lookup_insert_eq.
Qed.

Lemma call_sessions (env : Env) (payload : Payload) (retries : nat) (w : World) :
  sessions (callOpenAIWithRetry env payload retries w).1 = sessions w.
Proof. apply retry_loop_sessions. Qed.

Lemma call_defined (env : Env) (payload : Payload) (retries : nat) (w : World) :
  0 < retries -> (callOpenAIWithRetry env payload retries w).2 <> Return None.
Proof. intros H. now apply retry_loop_defined. Qed.

(** ** The summariser, case by case *)

Section Summariser.

Variable env : Env.
Variable sid : JsValue.

Lemma summarize_missing (w : World) :
  sessions w !! sid = None ->
  summarizeContextIfNeeded env sid w = (w, Return tt).
Proof.
  intros H. unfold summarizeContextIfNeeded, bind, gets. now rewrite H.
Qed.

Lemma summarize_short (w : World) (context : list Message) :
  sessions w !! sid = Some context ->
  length (drop 1 context) <= MAX_HISTORY_MESSAGES_BEFORE_SUMMARY ->
  summarizeContextIfNeeded env sid w = (w, Return tt).
Proof.
  intros H Hlen. unfold summarizeContextIfNeeded, bind, gets. rewrite H.
  destruct context as [|context0 rest]; [reflexivity|].
  change (drop 1 (context0 :: rest)) with rest in Hlen.
  apply Nat.leb_le in Hlen. now rewrite Hlen.
Qed.

Lemma summarize_long (w : World) (context0 : Message) (rest : list Message) :
  sessions w !! sid = Some (context0 :: rest) ->
  MAX_HISTORY_MESSAGES_BEFORE_SUMMARY < length rest ->
  summarizeContextIfNeeded env sid w
  = match callOpenAIWithRetry env (summary_request rest) 3 w with
    | (w1, Return (Some r)) =>
        (with_sessions
           <[sid := [context0;
                     summary_message (Js.or_else (output_text r) summary_fallback)]]>
           w1,
         Return tt)
    | (w1, Return None) => (w1, Throw TypeError)
    | (w1, Throw err) => (w1, Throw err)
    end.
Proof.
  intros H Hlen. unfold summarizeContextIfNeeded. unfold bind at 1. unfold gets.
  rewrite H. apply Nat.leb_gt in Hlen. rewrite Hlen.
  unfold bind.
  destruct (callOpenAIWithRetry env (summary_request rest) 3 w)
    as [w1 [[r|]|err]]; reflexivity.
Qed.

End Summariser.

(** ** The chat handler, once the summariser is through *)

Section Handler.

Variable env : Env.
Variable message : string.
Variable sessionId : JsValue.

Local Abbreviation sid := (session_key sessionId).

Lemma handle_summary_throw (w w1 : World) (err : JsError) :
  summarizeContextIfNeeded env sid (getContextForSession sid w).1 = (w1, Throw err) ->
  handleChatMessage env message sessionId w = (w1, Throw err).
Proof.
  intros Hsum. unfold handleChatMessage.
  change (if truthy sessionId then sessionId else JStr "default-session") with sid.
  cbv zeta. unfold bind at 1.
  destruct (getContext_stored sid w) as (w0 & context & E0 & _).
  rewrite E0 in Hsum |- *. simpl in Hsum.
  unfold bind at 1. now rewrite Hsum.
Qed.

Lemma handle_run (w w1 : World) (context : list Message) :
  summarizeContextIfNeeded env sid (getContextForSession sid w).1 = (w1, Return tt) ->
  sessions w1 !! sid = Some context ->
  handleChatMessage env message sessionId w
  = let asked := context ++ [user_message message] in
    match callOpenAIWithRetry env (chat_request asked) 3
            (with_sessions <[sid := asked]> w1) with
    | (w2, Throw err) => (w2, Throw err)
    | (w2, Return None) => (w2, Throw TypeError)
    | (w2, Return (Some r)) =>
        let text := Js.or_else (output_text r) reply_fallback in
        let cleaned := sanitize text in
        let w3 :=
          with_sessions <[sid := asked ++ [assistant_message cleaned]]> w2 in
        if isOrderCompleted text then
          let fields := extractTicketFields text in
          let w4 :=
            tick (emit (EvJira (jira_summary fields) (jira_description fields cleaned))
                    (tick (emit (EvMail cleaned) w3))) in
          match jira env (S (ticks w3)) (jira_summary fields)
                  (jira_description fields cleaned) with
          | Some key =>
              (with_sessions <[sid := [system_message]]> w4,
               Return {| reply := cleaned; orderCompleted := true;
                         jiraIssueKey := key |})
          | None =>
              (w4, Return {| reply := cleaned; orderCompleted := true;
                             jiraIssueKey := None |})
          end
        else
          (w3, Return {| reply := cleaned; orderCompleted := false;
                         jiraIssueKey := None |})
    end.
Proof.
  intros Hsum Hctx. unfold handleChatMessage.
  change (if truthy sessionId then sessionId else JStr "default-session") with sid.
  cbv zeta. unfold bind at 1.
  destruct (getContext_stored sid w) as (w0 & context0 & E0 & _).
  rewrite E0 in Hsum |- *. simpl in Hsum.
  unfold bind at 1. rewrite Hsum.
  unfold bind at 1. rewrite (getContext_existing _ _ _ Hctx).
  unfold bind at 1. unfold modify at 1.
  unfold bind at 1.
  change {| role := user; content := message |} with (user_message message).
  destruct (callOpenAIWithRetry env _ 3 _) as [w2 [[r|]|err]];
    [|reflexivity|reflexivity].
  unfold output_text_or at 1. unfold bind at 1. unfold ret at 1.
  unfold bind at 1. unfold modify at 1.
  fold (sanitize (Js.or_else (output_text r) reply_fallback)).
  destruct (isOrderCompleted _); [|reflexivity].
  unfold bind, sendOrderEmail, createJiraIssue, modify, ret.
  fold (jira_summary (extractTicketFields (Js.or_else (output_text r) reply_fallback))).
  fold (jira_description (extractTicketFields (Js.or_else (output_text r) reply_fallback))
          (sanitize (Js.or_else (output_text r) reply_fallback))).
  cbn [ticks tick emit with_sessions].
  destruct (jira env _ _ _) as [key|]; reflexivity.
Qed.

End Handler.

(** ** What a turn does to the session store *)

Lemma summarize_store (env : Env) (sid : JsValue) (w : World) :
  sessions (summarizeContextIfNeeded env sid w).1 = sessions w
  \/ exists context0 rest summaryText,
       sessions w !! sid = Some (context0 :: rest)
       /\ sessions (summarizeContextIfNeeded env sid w).1
          = <[sid := [context0; summary_message summaryText]]> (sessions w).
Proof.
  destruct (sessions w !! sid) as [[|context0 rest]|] eqn:E.
  - left. now rewrite (summarize_short env sid w [] E) by (simpl; lia).
  - destruct (le_lt_dec (length rest) MAX_HISTORY_MESSAGES_BEFORE_SUMMARY) as [H|H].
    + left. now rewrite (summarize_short env sid w _ E).
    + rewrite (summarize_long env sid w _ _ E H).
      pose proof (call_sessions env (summary_request rest) 3 w) as Hcall.
      destruct (callOpenAIWithRetry env (summary_request rest) 3 w)
        as [w1 [[r|]|err]]; simpl in Hcall |- *; rewrite Hcall; eauto 10.
  - left. now rewrite summarize_missing.
Qed.

Lemma summarize_keeps_session (env : Env) (sid : JsValue) (w : World) :
  is_Some (sessions w !! sid) ->
  is_Some (sessions (summarizeContextIfNeeded env sid w).1 !! sid).
Proof.
  intros H. destruct (summarize_store env sid w) as [E|(c0 & rest & y & _ & E)];
    rewrite E; [exact H|].
  rewrite lookup_insert_eq. eauto.
Qed.

(** A property [Inv] of the store that survives every write of a turn under
    the key [sid], as long as the sequences written satisfy [G]. *)
Section Invariant.

Variable env : Env.
Variable sid : JsValue.
Variable Inv : gmap JsValue (list Message) -> Prop.
Variable G : list Message -> Prop.

Hypothesis Inv_insert : forall store context,
  Inv store -> G context -> Inv (<[sid := context]> store).
Hypothesis Inv_lookup : forall store context,
  Inv store -> store !! sid = Some context -> G context.
Hypothesis G_push : forall context msg, G context -> G (context ++ [msg]).
Hypothesis G_compact : forall context0 rest msg,
  G (context0 :: rest) -> G [context0; msg].
Hypothesis G_fresh : G [system_message].

Lemma getContext_inv (w : World) :
  Inv (sessions w) -> Inv (sessions (getContextForSession sid w).1).
Proof.
  intros H. unfold getContextForSession.
  destruct (sessions w !! sid); simpl; auto.
Qed.

Lemma summarize_inv (w : World) :
  Inv (sessions w) -> Inv (sessions (summarizeContextIfNeeded env sid w).1).
Proof.
  intros H. destruct (summarize_store env sid w) as [E|(c0 & rest & y & Hc & E)];
    rewrite E; [exact H|].
  apply Inv_insert; [exact H|]. eapply G_compact, Inv_lookup; eauto.
Qed.

Lemma handle_inv_opened (message : string) (sessionId : JsValue) (w : World) :
  session_key sessionId = sid ->
  Inv (sessions (getContextForSession sid w).1) ->
  Inv (sessions (handleChatMessage env message sessionId w).1).
Proof.
  intros Hsid H0.
  pose proof (summarize_inv _ H0) as H1.
  destruct (getContext_stored sid w) as (w0 & context0 & E0 & Hc0).
  pose proof (summarize_keeps_session env sid w0 (ex_intro _ _ Hc0)) as [context Hc].
  rewrite E0 in H0, H1. simpl in H0, H1.
  destruct (summarizeContextIfNeeded env sid w0) as [w1 [[]|err]] eqn:Hsum;
    simpl in H1, Hc.
  - rewrite (handle_run env message sessionId w w1 context);
      rewrite ?Hsid, ?E0; simpl; try assumption.
    pose proof (Inv_lookup _ _ H1 Hc) as Hg.
    set (asked := context ++ [user_message message]).
    pose proof (call_sessions env (chat_request asked) 3
                  (with_sessions <[sid := asked]> w1)) as Hcall.
    assert (Inv (<[sid := asked]> (sessions w1))) as Hasked
      by (apply Inv_insert; [assumption | now apply G_push]).
    destruct (callOpenAIWithRetry env (chat_request asked) 3 _)
      as [w2 [[r|]|err]]; simpl in Hcall |- *; try now rewrite Hcall.
    assert (Inv (<[sid := asked ++ [assistant_message
                    (sanitize (Js.or_else (output_text r) reply_fallback))]]>
                   (sessions w2))) as Hdone.
    { rewrite Hcall. apply Inv_insert; [assumption|]. now apply G_push, G_push. }
    destruct (isOrderCompleted _); [|exact Hdone].
    destruct (jira env _ _ _) as [key|]; simpl; [|exact Hdone].
    now apply Inv_insert.
  - rewrite (handle_summary_throw env message sessionId w w1 err);
      rewrite ?Hsid, ?E0; simpl; assumption.
Qed.

Lemma handle_inv (message : string) (sessionId : JsValue) (w : World) :
  session_key sessionId = sid ->
  Inv (sessions w) ->
  Inv (sessions (handleChatMessage env message sessionId w).1).
Proof. intros Hsid H. now apply handle_inv_opened, getContext_inv. Qed.

End Invariant.

(** ** Instances of the store invariant *)

Lemma store_ok_empty : store_ok (sessions initial_world).
Proof. intros sid context H. simpl in H. now rewrite lookup_empty in H. Qed.

Lemma store_ok_insert (sid : JsValue) (store : gmap JsValue (list Message))
  (context : list Message) :
  store_ok store -> starts_with_system context ->
  store_ok (<[sid := context]> store).
Proof.
  intros H Hc k c Hk. destruct (decide (sid = k)) as [->|Hne].
  - rewrite lookup_insert_eq in Hk. now injection Hk as <-.
  - rewrite lookup_insert_ne in Hk by assumption. eauto.
Qed.

Lemma store_ok_delete (sid : JsValue) (store : gmap JsValue (list Message)) :
  store_ok store -> store_ok (delete sid store).
Proof.
  intros H k c Hk. destruct (decide (sid = k)) as [->|Hne].
  - now rewrite lookup_delete_eq in Hk.
  - rewrite lookup_delete_ne in Hk by assumption. eauto.
Qed.

Section StoreOk.

Variable env : Env.
Variable sid : JsValue.

Local Abbreviation G := starts_with_system.

Lemma G_push_ok (context : list Message) (msg : Message) :
  G context -> G (context ++ [msg]).
Proof. intros [rest ->]. now exists (rest ++ [msg]). Qed.

Lemma G_compact_ok (context0 : Message) (rest : list Message) (msg : Message) :
  G (context0 :: rest) -> G [context0; msg].
Proof. intros [rest' [= -> _]]. now exists [msg]. Qed.

Lemma getContext_store_ok (w : World) :
  store_ok (sessions w) -> store_ok (sessions (getContextForSession sid w).1).
Proof.
  apply (getContext_inv sid store_ok G); [apply store_ok_insert | now exists []].
Qed.

Lemma summarize_store_ok (w : World) :
  store_ok (sessions w) ->
  store_ok (sessions (summarizeContextIfNeeded env sid w).1).
Proof.
  apply (summarize_inv env sid store_ok G);
    [apply store_ok_insert | intros store context H; apply H | apply G_compact_ok].
Qed.

Lemma handle_store_ok (message : string) (sessionId : JsValue) (w : World) :
  session_key sessionId = sid ->
  store_ok (sessions w) ->
  store_ok (sessions (handleChatMessage env message sessionId w).1).
Proof.
  apply (handle_inv env sid store_ok G);
    [ apply store_ok_insert | intros store context H; apply H
    | apply G_push_ok | apply G_compact_ok | now exists [] ].
Qed.

End StoreOk.

(** A turn writes under its own key only. *)
Lemma handle_frame (env : Env) (message : string) (sessionId : JsValue)
  (w : World) (k : JsValue) :
  k <> session_key sessionId ->
  sessions (handleChatMessage env message sessionId w).1 !! k = sessions w !! k.
Proof.
  intros Hk.
  apply (handle_inv env (session_key sessionId)
           (fun store => store !! k = sessions w !! k) (fun _ => True));
    try tauto.
  intros store context H _. rewrite lookup_insert_ne; [exact H | congruence].
Qed.

(** After a turn, whatever its outcome, its session exists. *)
Lemma handle_session_exists (env : Env) (message : string) (sessionId : JsValue)
  (w : World) :
  is_Some (sessions (handleChatMessage env message sessionId w).1
             !! session_key sessionId).
Proof.
  apply (handle_inv_opened env (session_key sessionId)
           (fun store => is_Some (store !! session_key sessionId)) (fun _ => True));
    try tauto.
  - intros store context _ _. rewrite lookup_insert_eq. eauto.
  - destruct (getContext_stored (session_key sessionId) w) as (w0 & c & E & H).
    rewrite E. simpl. eauto.
Qed.

(** * The claims *)

(** C1.  [callOpenAIWithRetry] with retry budget [retries]: when the
    attempts [0 .. k-1] are answered with status 429 and attempt [k] is either
    not rate limited or the last one the budget allows, the call makes exactly
    [k + 1] attempts, sleeps [(j + 1) * 1000] ms after the rate-limited attempt
    [j] (1000, 2000, ...: strictly increasing) and nothing happens after
    attempt [k]: its response is returned, its error is thrown to the
    caller. *)
Theorem callOpenAIWithRetry_backoff (env : Env) (payload : Payload)
  (retries k : nat) (w : World) :
  k < retries ->
  (forall j, j < k -> rate_limited (openai env (ticks w + j) payload) = true) ->
  rate_limited (openai env (ticks w + k) payload) = false \/ k + 1 = retries ->
  callOpenAIWithRetry env payload retries w
  = ({| sessions := sessions w;
        ticks := ticks w + k + 1;
        trace := trace w ++ attempts payload 0 k |},
     handed_on (openai env (ticks w + k) payload))
  /\ delays (attempts payload 0 k)
     = map (fun j => (Z.of_nat j + 1) * 1000)%Z (seq 0 k)
  /\ increasing (delays (attempts payload 0 k)) = true
  /\ (forall err, openai env (ticks w + k) payload = inl err ->
        (callOpenAIWithRetry env payload retries w).2 = Throw err).
Proof.
  intros Hk Hbefore Hlast.
  assert (callOpenAIWithRetry env payload retries w
          = ({| sessions := sessions w;
                ticks := ticks w + k + 1;
                trace := trace w ++ attempts payload 0 k |},
             handed_on (openai env (ticks w + k) payload))) as Hrun.
  { unfold callOpenAIWithRetry. apply retry_loop_run; auto. }
  split; [exact Hrun|]. split; [apply delays_attempts|].
  split.
  - rewrite delays_attempts. apply increasing_backoff.
  - intros err Herr. now rewrite Hrun, Herr.
Qed.

Lemma callOpenAIWithRetry_backoff_witness :
  callOpenAIWithRetry backend_recovers (chat_request [system_message; hello]) 3
    initial_world
  = ({| sessions := sessions initial_world;
        ticks := 3;
        trace := attempts (chat_request [system_message; hello]) 0 2 |},
     Return (Some {| output_text := Some "ok" |}))
  /\ delays (attempts (chat_request [system_message; hello]) 0 2)
     = [1000; 2000]%Z.
Proof.
  destruct (callOpenAIWithRetry_backoff backend_recovers
              (chat_request [system_message; hello]) 3 2 initial_world)
    as (Hrun & Hdelays & _).
  - lia.
  - intros [|[|j]] Hj; [reflexivity | reflexivity | lia].
  - left. reflexivity.
  - split; [exact Hrun | exact Hdelays].
Defined.

(** C2.  The summariser leaves a session with at most 20 messages after its
    first one alone.  With more than 20, once its backend call has returned a
    response, the session is exactly two messages: the first message it had,
    unchanged, and one assistant message whose content is
    "Conversation summary so far:", a line feed and the summary text, which is
    the output text of the response (the fallback line when that is empty or
    missing). *)
Theorem summarize_shape (env : Env) (sid : JsValue) (w : World)
  (context0 : Message) (rest : list Message) :
  sessions w !! sid = Some (context0 :: rest) ->
  (length rest <= 20 -> summarizeContextIfNeeded env sid w = (w, Return tt))
  /\ (20 < length rest ->
      forall w1 r,
        callOpenAIWithRetry env (summary_request rest) 3 w = (w1, Return (Some r)) ->
        let summaryText := Js.or_else (output_text r) summary_fallback in
        let compacted :=
          [ context0;
            {| role := assistant;
               content := "Conversation summary so far:" +:+ LF +:+ summaryText |} ] in
        summarizeContextIfNeeded env sid w
        = (with_sessions <[sid := compacted]> w1, Return tt)
        /\ sessions (summarizeContextIfNeeded env sid w).1 !! sid = Some compacted
        /\ length compacted = 2
        /\ (forall c text, output_text r = Some (String c text) ->
              summaryText = String c text)).
Proof.
  intros Hctx. split.
  - intros Hlen. now apply (summarize_short env sid w (context0 :: rest)).
  - intros Hlen w1 r Hcall summaryText compacted.
    assert (summarizeContextIfNeeded env sid w
            = (with_sessions <[sid := compacted]> w1, Return tt)) as Hrun.
    { rewrite (summarize_long env sid w context0 rest Hctx Hlen). now rewrite Hcall. }
    split; [exact Hrun|]. split; [|split; [reflexivity|]].
    + rewrite Hrun. simpl. apply lookup_insert_eq.
    + intros c text Htext. unfold summaryText. now rewrite Htext.
Qed.

Lemma summarize_shape_witness :
  sessions (summarizeContextIfNeeded backend_summarises (JStr "s1") long_world).1
    !! JStr "s1"
  = Some [system_message; summary_message "They greeted."].
Proof.
  destruct (summarize_shape backend_summarises (JStr "s1")
              long_world system_message (repeat hello 21) eq_refl)
    as [_ Hlong].
  destruct (Hlong ltac:(simpl; lia) _ _ eq_refl) as (_ & Hstored & _).
  exact Hstored.
Defined.

(** C5.  When the backend call of a turn ends with an error (its retries
    exhausted, or an error that is not retried), [handleChatMessage] throws
    that error and appends no assistant message: the session is what it was
    when the summariser was through - the history the turn found (the fresh
    session for a new key), or its summary - followed by the one user
    message, and no other session has changed. *)
Theorem failed_turn_keeps_user_message (env : Env) (message : string)
  (sessionId : JsValue) (w w1 w2 : World) (context : list Message)
  (err : JsError) :
  let sid := session_key sessionId in
  let asked := context ++ [user_message message] in
  summarizeContextIfNeeded env sid (getContextForSession sid w).1 = (w1, Return tt) ->
  sessions w1 !! sid = Some context ->
  callOpenAIWithRetry env (chat_request asked) 3 (with_sessions <[sid := asked]> w1)
  = (w2, Throw err) ->
  handleChatMessage env message sessionId w = (w2, Throw err)
  /\ sessions w2 !! sid = Some (context ++ [user_message message])
  /\ (forall k, k <> sid -> sessions w2 !! k = sessions w !! k)
  /\ (sessions w !! sid = None -> context = [system_message])
  /\ (forall before, sessions w !! sid = Some before ->
        length (drop 1 before) <= 20 -> context = before)
  /\ (forall context0 rest, sessions w !! sid = Some (context0 :: rest) ->
        20 < length rest ->
        exists summaryText, context = [context0; summary_message summaryText]).
Proof.
  intros sid asked Hsum Hctx Hcall.
  assert (handleChatMessage env message sessionId w = (w2, Throw err)) as Hrun.
  { rewrite (handle_run env message sessionId w w1 context Hsum Hctx).
    cbv zeta. subst sid asked. now rewrite Hcall. }
  split; [exact Hrun|]. split; [|split; [|split; [|split]]].
  - pose proof (call_sessions env (chat_request asked) 3
                  (with_sessions <[sid := asked]> w1)) as H.
    rewrite Hcall in H. simpl in H. rewrite H. apply lookup_insert_eq.
  - intros k Hk.
    pose proof (handle_frame env message sessionId w k Hk) as H.
    now rewrite Hrun in H.
  - intros Hnew. rewrite (getContext_fresh sid w Hnew) in Hsum. simpl in Hsum.
    rewrite (summarize_short env sid _ [system_message]) in Hsum.
    + injection Hsum as <-. simpl in Hctx. rewrite lookup_insert_eq in Hctx.
      now injection Hctx as <-.
    + simpl. apply lookup_insert_eq.
    + simpl. lia.
  - intros before Hbefore Hlen.
    rewrite (getContext_existing sid w before Hbefore) in Hsum. simpl in Hsum.
    rewrite (summarize_short env sid w before Hbefore Hlen) in Hsum.
    injection Hsum as <-. rewrite Hbefore in Hctx. now injection Hctx as <-.
  - intros context0 rest Hbefore Hlen.
    rewrite (getContext_existing sid w _ Hbefore) in Hsum. simpl in Hsum.
    rewrite (summarize_long env sid w context0 rest Hbefore Hlen) in Hsum.
    destruct (callOpenAIWithRetry env (summary_request rest) 3 w)
      as [w' [[r|]|e]]; try discriminate.
    injection Hsum as <-. simpl in Hctx. rewrite lookup_insert_eq in Hctx.
    injection Hctx as <-. eauto.
Qed.

Lemma failed_turn_keeps_user_message_witness :
  (handleChatMessage backend_overloaded "hi" (JStr "s1") initial_world).2
  = Throw (ApiError (Some 429%Z))
  /\ sessions (handleChatMessage backend_overloaded "hi" (JStr "s1") initial_world).1
       !! JStr "s1"
     = Some [system_message; user_message "hi"].
Proof.
  destruct (failed_turn_keeps_user_message backend_overloaded "hi" (JStr "s1")
              initial_world _ _ [system_message] (ApiError (Some 429%Z))
              eq_refl eq_refl eq_refl)
    as (Hrun & Hstored & _).
  rewrite Hrun. split; [reflexivity | exact Hstored].
Defined.

(** C6.  When the session is long enough to be summarised and the backend
    call of the summariser ends with an error, the summariser throws that
    error, and so does the turn; the session store is what it was before
    (nothing is replaced, and the user message of the turn is not
    appended). *)
Theorem failed_summary_leaves_session (env : Env) (message : string)
  (sessionId : JsValue) (w w1 : World) (context0 : Message)
  (rest : list Message) (err : JsError) :
  let sid := session_key sessionId in
  sessions w !! sid = Some (context0 :: rest) ->
  20 < length rest ->
  callOpenAIWithRetry env (summary_request rest) 3 w = (w1, Throw err) ->
  summarizeContextIfNeeded env sid w = (w1, Throw err)
  /\ handleChatMessage env message sessionId w = (w1, Throw err)
  /\ sessions w1 = sessions w.
Proof.
  intros sid Hctx Hlen Hcall.
  assert (summarizeContextIfNeeded env sid w = (w1, Throw err)) as Hsum.
  { rewrite (summarize_long env sid w context0 rest Hctx Hlen). now rewrite Hcall. }
  split; [exact Hsum|]. split.
  - apply handle_summary_throw. cbv zeta. subst sid.
    now rewrite (getContext_existing _ w _ Hctx).
  - pose proof (call_sessions env (summary_request rest) 3 w) as H.
    now rewrite Hcall in H.
Qed.

Lemma failed_summary_leaves_session_witness :
  (handleChatMessage backend_down "hi" (JStr "s1") long_world).2
  = Throw (ApiError (Some 503%Z))
  /\ sessions (handleChatMessage backend_down "hi" (JStr "s1") long_world).1
     = sessions long_world.
Proof.
  destruct (failed_summary_leaves_session backend_down "hi" (JStr "s1") long_world _
              system_message (repeat hello 21) (ApiError (Some 503%Z))
              eq_refl ltac:(simpl; lia) eq_refl)
    as (_ & Hrun & Hsame).
  rewrite Hrun. split; [reflexivity | exact Hsame].
Defined.

(** C7.  Every stored session is non-empty and starts with the system
    instruction: this holds of the empty store the process starts with, and
    session creation, the summariser, a whole turn of the chat handler
    (appends, compaction, the reset after a filed ticket, whatever the
    outcome) and the reset route keep it. *)
Theorem system_message_stays_first (env : Env) (w : World) :
  store_ok (sessions w) ->
  store_ok (sessions initial_world)
  /\ (forall sid, store_ok (sessions (getContextForSession sid w).1))
  /\ (forall sid, store_ok (sessions (summarizeContextIfNeeded env sid w).1))
  /\ (forall message sessionId,
        store_ok (sessions (handleChatMessage env message sessionId w).1))
  /\ (forall sessionId, store_ok (sessions (resetSession sessionId w).1)).
Proof.
  intros H. split; [apply store_ok_empty|].
  split; [intros sid; now apply getContext_store_ok|].
  split; [intros sid; now apply summarize_store_ok|].
  split.
  - intros message sessionId.
    now apply (handle_store_ok env (session_key sessionId)).
  - intros sessionId. unfold resetSession.
    destruct (_ && _); simpl; [now apply store_ok_delete | exact H].
Qed.

Lemma system_message_stays_first_witness :
  store_ok (sessions (handleChatMessage backend_greets "hi" (JStr "s1") initial_world).1).
Proof.
  destruct (system_message_stays_first backend_greets initial_world store_ok_empty)
    as (_ & _ & _ & Hturn & _).
  apply Hturn.
Defined.

(** C8.  A turn whose session identifier is falsy ([undefined], [null],
    [false], [0], [NaN], the empty string) is the turn with the identifier
    "default-session": same result, same state; afterwards that session
    exists and no session under another key has changed. *)
Theorem falsy_session_id_uses_default (env : Env) (message : string)
  (sessionId : JsValue) (w : World) :
  truthy sessionId = false ->
  handleChatMessage env message sessionId w
  = handleChatMessage env message (JStr "default-session") w
  /\ is_Some (sessions (handleChatMessage env message sessionId w).1
                !! JStr "default-session")
  /\ (forall k, k <> JStr "default-session" ->
        sessions (handleChatMessage env message sessionId w).1 !! k
        = sessions w !! k).
Proof.
  intros Hfalsy.
  assert (session_key sessionId = JStr "default-session") as Hkey
    by (unfold session_key; now rewrite Hfalsy).
  split; [|split].
  - unfold handleChatMessage. now rewrite Hfalsy.
  - rewrite <- Hkey. apply handle_session_exists.
  - intros k Hk. apply handle_frame. now rewrite Hkey.
Qed.

Lemma falsy_session_id_uses_default_witness :
  sessions
    (handleChatMessage backend_greets "it is me" (JStr "")
       (handleChatMessage backend_greets "hi" JUndefined initial_world).1).1
    !! JStr "default-session"
  = Some [system_message; user_message "hi"; assistant_message "Hello!";
          user_message "it is me"; assistant_message "Hello again!"].
Proof.
  destruct (falsy_session_id_uses_default backend_greets "hi" JUndefined
              initial_world eq_refl) as (H1 & _ & _).
  destruct (falsy_session_id_uses_default backend_greets "it is me" (JStr "")
              (handleChatMessage backend_greets "hi" JUndefined initial_world).1
              eq_refl) as (H2 & _ & _).
  rewrite H2, H1. vm_compute. reflexivity.
Defined.

(** What a successful search for a literal says: the text splits into what
    was skipped, an occurrence of the literal in some letter case, and the
    rest; and the literal matches at no earlier position. *)
Lemma literal_ci_split (pat s rest : string) :
  RegExp.literal_ci pat s = Some rest ->
  exists occurrence,
    s = occurrence +:+ rest /\ RegExp.literal_ci pat occurrence = Some "".
Proof.
  revert s. induction pat as [|p pat IH]; intros s H; simpl in H.
  - injection H as <-. now exists "".
  - destruct s as [|c s]; [discriminate|].
    destruct (RegExp.char_eq_ci p c) eqn:E; [|discriminate].
    destruct (IH s H) as (occurrence & -> & Hocc).
    exists (String c occurrence). split; [reflexivity|].
    simpl. now rewrite E.
Qed.

Lemma search_literal_first (pat : string) :
  forall s pre rest,
    RegExp.search (RegExp.literal_ci pat) s = Some (pre, rest) ->
    exists occurrence,
      s = pre +:+ occurrence +:+ rest
      /\ RegExp.literal_ci pat occurrence = Some ""
      /\ (forall skipped c later,
            pre = skipped +:+ String c later ->
            RegExp.literal_ci pat (String c later +:+ occurrence +:+ rest) = None).
Proof.
  assert (forall s r, RegExp.literal_ci pat s = Some r ->
            exists occurrence,
              s = "" +:+ occurrence +:+ r
              /\ RegExp.literal_ci pat occurrence = Some ""
              /\ (forall skipped c later,
                    "" = skipped +:+ String c later ->
                    RegExp.literal_ci pat (String c later +:+ occurrence +:+ r) = None))
    as Hhere.
  { intros s r H. destruct (literal_ci_split _ _ _ H) as (occurrence & -> & Hocc).
    exists occurrence. repeat split; [exact Hocc|].
    intros [|y skipped] c later; discriminate. }
  induction s as [|x t IH]; intros pre rest H; simpl in H.
  - destruct (RegExp.literal_ci pat "") as [r|] eqn:E; [|discriminate].
    injection H as <- <-. now apply Hhere.
  - destruct (RegExp.literal_ci pat (String x t)) as [r|] eqn:E.
    + injection H as <- <-. now apply Hhere.
    + destruct (RegExp.search (RegExp.literal_ci pat) t) as [[pre' rest']|] eqn:Et;
        [|discriminate].
      injection H as <- <-.
      destruct (IH _ _ eq_refl) as (occurrence & -> & Hocc & Hfirst).
      exists occurrence. repeat split; [exact Hocc|].
      intros [|y skipped] c later Hpre; simpl in Hpre.
      * injection Hpre as <- <-. exact E.
      * injection Hpre as _ ->. now apply (Hfirst skipped).
Qed.

Lemma literal_ci_app (pat s rest tail : string) :
  RegExp.literal_ci pat s = Some rest ->
  RegExp.literal_ci pat (s +:+ tail) = Some (rest +:+ tail).
Proof.
  revert s. induction pat as [|p pat IH]; intros s H; simpl in H |- *.
  - now injection H as <-.
  - destruct s as [|c s]; [discriminate|]. simpl.
    destruct (RegExp.char_eq_ci p c); [now apply IH | discriminate].
Qed.

(** Conversely, an occurrence with no match before it is the one the search
    finds. *)
Lemma search_literal_complete (pat occurrence rest : string) :
  RegExp.literal_ci pat occurrence = Some "" ->
  forall pre,
    (forall skipped c later,
       pre = skipped +:+ String c later ->
       RegExp.literal_ci pat (String c later +:+ occurrence +:+ rest) = None) ->
    RegExp.search (RegExp.literal_ci pat) (pre +:+ occurrence +:+ rest)
    = Some (pre, rest).
Proof.
  intros Hocc. induction pre as [|x pre IH]; intros Hfirst.
  - apply search_here. exact (literal_ci_app pat occurrence "" rest Hocc).
  - change (String x pre +:+ occurrence +:+ rest)
      with (String x (pre +:+ occurrence +:+ rest)).
    rewrite search_next by exact (Hfirst "" x pre eq_refl).
    rewrite IH; [reflexivity|].
    intros skipped c later ->. exact (Hfirst (String x skipped) c later eq_refl).
Qed.

(** The leftmost match of "first [m1], then [m2]" starts at the leftmost
    match of [m1] when [m2] matches what follows it. *)
Lemma search_then {R : Type} (m1 : string -> option string)
  (m2 m : string -> option R) (found : R) :
  (forall s, m s = match m1 s with Some r => m2 r | None => None end) ->
  forall text pre after,
    RegExp.search m1 text = Some (pre, after) ->
    m2 after = Some found ->
    RegExp.search m text = Some (pre, found).
Proof.
  intros Hm.
  assert (forall s r, m1 s = Some r -> m2 r = Some found ->
            RegExp.search m s = Some ("", found)) as Hhere.
  { intros s r H1 H2. apply search_here. now rewrite Hm, H1. }
  induction text as [|c text IH]; intros pre after Hopen Hclose; simpl in Hopen.
  - destruct (m1 "") as [r|] eqn:E; [|discriminate].
    injection Hopen as <- <-. eauto.
  - destruct (m1 (String c text)) as [r|] eqn:E.
    + injection Hopen as <- <-. eauto.
    + destruct (RegExp.search m1 text) as [[pre' after']|] eqn:Et; [|discriminate].
      injection Hopen as <- <-.
      rewrite search_next by (now rewrite Hm, E).
      now rewrite (IH _ _ eq_refl Hclose).
Qed.

Lemma search_tag_pair (tag inner post text pre after : string) :
  RegExp.search (RegExp.literal_ci ("<" +:+ tag +:+ ">")) text = Some (pre, after) ->
  RegExp.lazy_until ("</" +:+ tag +:+ ">") after = Some (inner, post) ->
  RegExp.search (RegExp.tag_pair tag) text = Some (pre, (inner, post)).
Proof. apply search_then. reflexivity. Qed.

(** C9.  When the first opening tag [<tag>] of the text (in any letter case)
    comes after [pre], and the first closing tag [</tag>] after it comes
    after [inner], extraction returns [inner] with the white space at its two
    ends removed - for [su] in [summary], for [de] in [description], for [ca]
    in [category]. *)
Theorem get_trims_first_pair (text tag pre after inner post : string) :
  RegExp.search (RegExp.literal_ci ("<" +:+ tag +:+ ">")) text = Some (pre, after) ->
  RegExp.search (RegExp.literal_ci ("</" +:+ tag +:+ ">")) after = Some (inner, post) ->
  get text tag = Some (Js.trim inner)
  /\ (tag = "su" -> summary (extractTicketFields text) = Some (Js.trim inner))
  /\ (tag = "de" -> description (extractTicketFields text) = Some (Js.trim inner))
  /\ (tag = "ca" -> category (extractTicketFields text) = Some (Js.trim inner)).
Proof.
  intros Hopen Hclose.
  assert (get text tag = Some (Js.trim inner)) as Hget.
  { unfold get. now rewrite (search_tag_pair tag inner post text pre after). }
  split; [exact Hget|].
  repeat split; intros ->; exact Hget.
Qed.

Lemma get_trims_first_pair_witness :
  summary (extractTicketFields
             "Ok <SU>  Printer is dead </su> and <su>second</su>")
  = Some "Printer is dead"
  /\ Js.trim "  Printer is dead " <> "  Printer is dead ".
Proof.
  destruct (get_trims_first_pair
              "Ok <SU>  Printer is dead </su> and <su>second</su>" "su"
              "Ok " "  Printer is dead </su> and <su>second</su>"
              "  Printer is dead " " and <su>second</su>" eq_refl eq_refl)
    as (_ & Hsummary & _).
  split; [exact (Hsummary eq_refl) | discriminate].
Defined.

(** C4, as stated, fails: only a [<ticket>] block is removed, so a tag pair
    that stands outside one survives sanitising and is extracted again. *)
Lemma bare_tag_survives_sanitize :
  extractTicketFields (sanitize "Noted. <su>Printer</su>")
  = {| summary := Some "Printer"; description := None; category := None |}
  /\ extractTicketFields (sanitize "Noted. <su>Printer</su>") <> no_fields.
Proof. split; [vm_compute; reflexivity | vm_compute; discriminate]. Qed.

(** C4, amended.  When every [<] of the text stands inside one
    [<ticket>...</ticket>] block - nothing before or after the block has a
    [<], and the block holds no [[] and no closing ticket tag of its own -
    extraction from the sanitised text gives [null] for the three fields. *)
Theorem extract_after_sanitize_is_null (pre body post : string) :
  Js.lacks "<" pre = true ->
  Js.lacks "<" post = true ->
  Js.lacks "[" body = true ->
  absent "</ticket>" body ->
  extractTicketFields
    (sanitize (pre +:+ "<ticket>" +:+ body +:+ "</ticket>" +:+ post))
  = no_fields.
Proof.
  intros Hpre Hpost Hbody Hclose.
  unfold sanitize. rewrite (sanitize_block pre body post Hpre Hbody Hclose).
  assert (Js.lacks "<"
            (Js.trim (Js.trimStart (scrub pre) +:+ Js.trimEnd (scrub post)))
          = true) as Hplain.
  { unfold Js.lacks. apply all_chars_trim. rewrite all_chars_app.
    apply andb_true_intro. split.
    - apply all_chars_trimStart, all_chars_remove_all, Hpre.
    - apply all_chars_trimEnd, all_chars_remove_all, Hpost. }
  unfold extractTicketFields, no_fields.
  now rewrite !(get_plain _ _ Hplain).
Qed.

Lemma extract_after_sanitize_is_null_witness :
  extractTicketFields
    (sanitize
       ("I am filing it. " +:+ "<ticket>"
        +:+ "<su>Printer</su><de>It is dead</de><ca>Hardware</ca>"
        +:+ "</ticket>" +:+ " [[ORDER_COMPLETED]]"))
  = no_fields.
Proof.
  exact (extract_after_sanitize_is_null "I am filing it. "
           "<su>Printer</su><de>It is dead</de><ca>Hardware</ca>"
           " [[ORDER_COMPLETED]]" eq_refl eq_refl eq_refl eq_refl).
Defined.

(** ** Replies that fall back, replies that file a ticket *)

Lemma or_else_silent (r : Response) (fallback : string) :
  silent r = true -> Js.or_else (output_text r) fallback = fallback.
Proof. unfold silent. now destruct (output_text r) as [[|c s]|]. Qed.

Lemma or_else_ticket_reply (pre su de ca fallback : string) :
  Js.or_else (Some (ticket_reply pre su de ca)) fallback = ticket_reply pre su de ca.
Proof. unfold ticket_reply. now destruct pre. Qed.

Lemma plain_both (s : string) :
  plain s = true -> Js.lacks "<" s = true /\ Js.lacks "[" s = true.
Proof. unfold plain. apply andb_prop. Qed.

(** C3, as stated, fails: fields that are not wrapped in a [<ticket>] block
    stay in the reply the user sees (the marker goes). *)
Lemma bare_fields_stay_in_reply :
  (handleChatMessage backend_files_bare "that is all" (JStr "s1") initial_world).2
  = Return {| reply := "Done. <su>X</su><de>Y</de><ca>Z</ca>";
              orderCompleted := true;
              jiraIssueKey := Some "IT-8" |}
  /\ Js.includes "Done. <su>X</su><de>Y</de><ca>Z</ca>" (field_tags "X" "Y" "Z")
     = true.
Proof. split; vm_compute; reflexivity. Qed.

(** C3, amended.  When the backend reply is some text without [<] and
    [[], then the three fields wrapped in a [<ticket>] block, none of them
    holding a [<], then the completion marker: the turn reports
    [orderCompleted = true]; the fields it extracts are the three field texts,
    trimmed; the reply it returns is the text before the block, trimmed, which
    holds neither the block nor the marker.  The handler does not return the
    fields: its last act on the outside is the Jira request, which carries
    the trimmed summary (the default summary when that is empty) and the
    trimmed description (when that is empty, the reply with a note of the
    category); the category goes to Jira in that note only. *)
Theorem ticket_reply_turn (env : Env) (message : string) (sessionId : JsValue)
  (w w1 w2 : World) (context : list Message) (r : Response)
  (pre su de ca : string) :
  let sid := session_key sessionId in
  let asked := context ++ [user_message message] in
  let fields :=
    {| summary := Some (Js.trim su);
       description := Some (Js.trim de);
       category := Some (Js.trim ca) |} in
  summarizeContextIfNeeded env sid (getContextForSession sid w).1 = (w1, Return tt) ->
  sessions w1 !! sid = Some context ->
  callOpenAIWithRetry env (chat_request asked) 3 (with_sessions <[sid := asked]> w1)
  = (w2, Return (Some r)) ->
  output_text r = Some (ticket_reply pre su de ca) ->
  plain pre = true ->
  Js.lacks "<" su = true -> Js.lacks "<" de = true -> Js.lacks "<" ca = true ->
  extractTicketFields (ticket_reply pre su de ca) = fields
  /\ (exists w' key,
        handleChatMessage env message sessionId w
        = (w', Return {| reply := Js.trim pre; orderCompleted := true;
                         jiraIssueKey := key |})
        /\ last (trace w')
           = Some (EvJira
                     (Js.or_else (Some (Js.trim su)) default_jira_summary)
                     (Js.or_else (Some (Js.trim de))
                        (Js.trim pre +:+ LF +:+ LF +:+ "(Category: "
                         +:+ Js.or_else (Some (Js.trim ca)) "Uncategorized"
                         +:+ ")"))))
  /\ isOrderCompleted (Js.trim pre) = false
  /\ Js.lacks "<" (Js.trim pre) = true.
Proof.
  intros sid asked fields Hsum Hctx Hcall Htext Hpre Hsu Hde Hca.
  apply plain_both in Hpre. destruct Hpre as [Hpre Hpre'].
  assert (extractTicketFields (ticket_reply pre su de ca) = fields) as Hfields
    by now apply fields_of_ticket_reply.
  split; [exact Hfields|]. split; [|split].
  - rewrite (handle_run env message sessionId w w1 context Hsum Hctx).
    cbv zeta. subst sid asked. rewrite Hcall, Htext, or_else_ticket_reply.
    rewrite isOrderCompleted_ticket_reply, Hfields.
    rewrite sanitize_ticket_reply by assumption.
    destruct (jira env _ _ _) as [key|]; eexists _, _;
      (split; [reflexivity|]); simpl; apply last_snoc.
  - apply isOrderCompleted_plain. unfold Js.lacks. now apply all_chars_trim.
  - unfold Js.lacks. now apply all_chars_trim.
Qed.

Lemma ticket_reply_turn_witness :
  (handleChatMessage backend_files_ticket "that is all" (JStr "s1") initial_world).2
  = Return {| reply := "Done."; orderCompleted := true;
              jiraIssueKey := Some "IT-7" |}
  /\ extractTicketFields (ticket_reply "Done. " "Printer" " It is dead " "Hardware")
     = {| summary := Some "Printer"; description := Some "It is dead";
          category := Some "Hardware" |}.
Proof.
  destruct (ticket_reply_turn backend_files_ticket "that is all" (JStr "s1")
              initial_world _ _ [system_message] _
              "Done. " "Printer" " It is dead " "Hardware"
              eq_refl eq_refl eq_refl eq_refl eq_refl eq_refl eq_refl eq_refl)
    as (Hfields & (w' & key & Hrun & _) & _).
  split; [|exact Hfields].
  rewrite Hrun. simpl. f_equal. f_equal.
  apply (f_equal snd) in Hrun. vm_compute in Hrun. now injection Hrun as <-.
Defined.

(** C10, as stated, fails in its last clause: a successful call whose output
    is the completion marker alone leaves an assistant message with empty
    content in the session, and an empty reply. *)
Lemma marker_only_reply_is_stored_empty :
  openai backend_marker_only 0 (chat_request [system_message; user_message "ok"])
  = inr {| output_text := Some "[[ORDER_COMPLETED]]" |}
  /\ (handleChatMessage backend_marker_only "ok" (JStr "s1") initial_world).2
     = Return {| reply := ""; orderCompleted := true; jiraIssueKey := None |}
  /\ sessions (handleChatMessage backend_marker_only "ok" (JStr "s1") initial_world).1
       !! JStr "s1"
     = Some [system_message; user_message "ok"; assistant_message ""].
Proof. repeat split; vm_compute; reflexivity. Qed.

(** C10, amended.  When a backend call returns a response whose output text
    is empty or missing, the chat handler takes the fallback reply in its
    place - it is what the turn returns and what is stored as the assistant
    message, and the turn does not throw - and the summariser takes the
    fallback summary line; neither is the empty string. *)
Theorem silent_response_falls_back (env : Env) (r : Response) :
  silent r = true ->
  (forall message sessionId w w1 w2 context,
     let sid := session_key sessionId in
     let asked := context ++ [user_message message] in
     summarizeContextIfNeeded env sid (getContextForSession sid w).1
     = (w1, Return tt) ->
     sessions w1 !! sid = Some context ->
     callOpenAIWithRetry env (chat_request asked) 3 (with_sessions <[sid := asked]> w1)
     = (w2, Return (Some r)) ->
     handleChatMessage env message sessionId w
     = (with_sessions <[sid := asked ++ [assistant_message reply_fallback]]> w2,
        Return {| reply := reply_fallback; orderCompleted := false;
                  jiraIssueKey := None |}))
  /\ (forall sid w w1 context0 rest,
        sessions w !! sid = Some (context0 :: rest) ->
        20 < length rest ->
        callOpenAIWithRetry env (summary_request rest) 3 w = (w1, Return (Some r)) ->
        summarizeContextIfNeeded env sid w
        = (with_sessions
             <[sid := [context0; summary_message summary_fallback]]> w1,
           Return tt))
  /\ reply_fallback = "Sorry, I had trouble answering that."
  /\ content (summary_message summary_fallback)
     = "Conversation summary so far:" +:+ LF
       +:+ "Summary of the previous conversation so far (details omitted).".
Proof.
  intros Hsilent. split; [|split; [|split; reflexivity]].
  - intros message sessionId w w1 w2 context sid asked Hsum Hctx Hcall.
    rewrite (handle_run env message sessionId w w1 context Hsum Hctx).
    cbv zeta. subst sid asked. rewrite Hcall, (or_else_silent r _ Hsilent).
    reflexivity.
  - intros sid w w1 context0 rest Hctx Hlen Hcall.
    rewrite (summarize_long env sid w context0 rest Hctx Hlen), Hcall.
    now rewrite (or_else_silent r _ Hsilent).
Qed.

Lemma silent_response_falls_back_witness :
  handleChatMessage backend_silent "hi" (JStr "s1") initial_world
  = ((handleChatMessage backend_silent "hi" (JStr "s1") initial_world).1,
     Return {| reply := "Sorry, I had trouble answering that.";
               orderCompleted := false; jiraIssueKey := None |})
  /\ sessions (handleChatMessage backend_silent "hi" (JStr "s1") initial_world).1
       !! JStr "s1"
     = Some [system_message; user_message "hi";
             assistant_message "Sorry, I had trouble answering that."].
Proof.
  destruct (silent_response_falls_back backend_silent {| output_text := None |}
              eq_refl) as (Hturn & _).
  rewrite (Hturn "hi" (JStr "s1") initial_world _ _ [system_message]
             eq_refl eq_refl eq_refl).
  split; [reflexivity | vm_compute; reflexivity].
Defined.

(** ** The analyser on sample replies *)

Example extract_demo :
  extractTicketFields
    ("ok <ticket><SU> Printer  </su>" +:+ LF +:+ "<de>It is <b>dead</b></De><ca>Hardware</ca></ticket> [[Order_Completed]]")
  = {| summary := Some "Printer"; description := Some "It is <b>dead</b>";
       category := Some "Hardware" |}.
Proof. reflexivity. Qed.

Example strip_demo :
  stripTicketBlock (stripOrderCompletedTag
    ("ok <ticket><su>a</su></ticket>" +:+ LF +:+ "[[Order_Completed]]  ")) = "ok".
Proof. reflexivity. Qed.

Example strip_nested_demo :
  stripOrderCompletedTag "a [[ORDER_ [[order_completed]] COMPLETED]] b"
  = "a [[ORDER_COMPLETED]] b".
Proof. reflexivity. Qed.

Example bracketed_field_is_no_obstacle :
  sanitize (ticket_reply "Done. " "Printer [HP, 3rd floor]" "It is dead" "Hardware")
  = "Done."
  /\ extractTicketFields
       (ticket_reply "Done. " "Printer [HP, 3rd floor]" "It is dead" "Hardware")
     = {| summary := Some "Printer [HP, 3rd floor]";
          description := Some "It is dead"; category := Some "Hardware" |}.
Proof. split; vm_compute; reflexivity. Qed.

Example overloaded_backend_throws :
  callOpenAIWithRetry backend_overloaded (chat_request [system_message; hello]) 3
    initial_world
  = ({| sessions := sessions initial_world;
        ticks := 3;
        trace := attempts (chat_request [system_message; hello]) 0 2 |},
     Throw (ApiError (Some 429%Z))).
Proof. reflexivity. Qed.

Example other_error_is_not_retried :
  callOpenAIWithRetry backend_down (chat_request [system_message; hello]) 3
    initial_world
  = ({| sessions := sessions initial_world;
        ticks := 1;
        trace := [EvCreate (chat_request [system_message; hello])] |},
     Throw (ApiError (Some 503%Z))).
Proof. reflexivity. Qed.

Example no_budget_no_call :
  callOpenAIWithRetry backend_greets (chat_request [system_message; hello]) 0
    initial_world
  = (initial_world, Return None).
Proof. reflexivity. Qed.

(** * Further properties of the code *)

(** ** The gateway, whatever the backend does *)

Lemma last_attempt_exists (env : Env) (payload : Payload) :
  forall n t, 0 < n ->
    exists k, k < n
      /\ (forall j, j < k -> rate_limited (openai env (t + j) payload) = true)
      /\ (rate_limited (openai env (t + k) payload) = false \/ k + 1 = n).
Proof.
  induction n as [|n IH]; intros t Hn; [lia|].
  destruct (rate_limited (openai env (t + 0) payload)) eqn:E0.
  - destruct n as [|n].
    + exists 0. repeat split; [lia | intros j Hj; lia | now right].
    + destruct (IH (S t) ltac:(lia)) as (k & Hk & Hbefore & Hlast).
      exists (S k). split; [lia|]. split.
      * intros [|j] Hj; [exact E0|].
        replace (t + S j) with (S t + j) by lia. apply Hbefore. lia.
      * replace (t + S k) with (S t + k) by lia.
        destruct Hlast as [H|H]; [now left | right; lia].
  - exists 0. repeat split; [lia | intros j Hj; lia | now left].
Qed.

Lemma total_backoff (count first : nat) :
  total (map (fun j => (Z.of_nat j + 1) * 1000)%Z (seq first count))
  = (1000 * Z.of_nat count * Z.of_nat first
     + 500 * Z.of_nat count * (Z.of_nat count + 1))%Z.
Proof.
  revert first. induction count as [|count IH]; intros first; [reflexivity|].
  cbn [seq map total]. rewrite IH. nia.
Qed.

(** X1.  Whatever the backend answers, a call with a budget of at least one
    attempt makes [k + 1] attempts for some [k] below the budget, sleeps
    [1000 + 2000 + ... + k * 1000] ms in all - never more than
    [500 * retries * (retries - 1)], which is 3000 ms for the budget of 3 the
    server uses - hands on the outcome of its last attempt, never returns
    [undefined] and leaves the session store alone. *)
Theorem gateway_attempts_bounded (env : Env) (payload : Payload)
  (retries : nat) (w : World) :
  0 < retries ->
  exists k,
    k < retries
    /\ callOpenAIWithRetry env payload retries w
       = ({| sessions := sessions w;
             ticks := ticks w + k + 1;
             trace := trace w ++ attempts payload 0 k |},
          handed_on (openai env (ticks w + k) payload))
    /\ total (delays (attempts payload 0 k))
       = (500 * Z.of_nat k * (Z.of_nat k + 1))%Z
    /\ (total (delays (attempts payload 0 k))
        <= 500 * Z.of_nat retries * (Z.of_nat retries - 1))%Z
    /\ (callOpenAIWithRetry env payload retries w).2 <> Return None.
Proof.
  intros Hpos.
  destruct (last_attempt_exists env payload retries (ticks w) Hpos)
    as (k & Hk & Hbefore & Hlast).
  exists k. split; [exact Hk|].
  assert (total (delays (attempts payload 0 k))
          = (500 * Z.of_nat k * (Z.of_nat k + 1))%Z) as Htotal.
  { rewrite delays_attempts, total_backoff. lia. }
  split; [|split; [exact Htotal|split]].
  - unfold callOpenAIWithRetry. apply retry_loop_run; auto.
  - rewrite Htotal. nia.
  - now apply retry_loop_defined.
Qed.

Lemma gateway_attempts_bounded_witness :
  exists k,
    k < 3
    /\ callOpenAIWithRetry backend_always_overloaded
         (chat_request [system_message; hello]) 3 initial_world
       = ({| sessions := sessions initial_world;
             ticks := ticks initial_world + k + 1;
             trace := trace initial_world
                      ++ attempts (chat_request [system_message; hello]) 0 k |},
          handed_on (openai backend_always_overloaded (ticks initial_world + k)
                       (chat_request [system_message; hello])))
    /\ (total (delays (attempts (chat_request [system_message; hello]) 0 k))
        <= 3000)%Z.
Proof.
  destruct (gateway_attempts_bounded backend_always_overloaded
              (chat_request [system_message; hello]) 3 initial_world
              ltac:(lia))
    as (k & Hk & Hrun & _ & Hbound & _).
  exists k. split; [exact Hk|]. split; [exact Hrun | exact Hbound].
Defined.

(** ** The completion detector and the marker pattern agree *)

Lemma marker_case_folding (c : ascii) :
  Js.all_chars
    (fun p => Bool.eqb (Ascii.eqb (Js.lower_char p) (Js.lower_char c))
                (RegExp.char_eq_ci p c))
    "[[ORDER_COMPLETED]]" = true.
Proof. destruct c as [[] [] [] [] [] [] [] []]; reflexivity. Qed.

Lemma starts_with_lower (pat : string) :
  (forall c,
     Js.all_chars
       (fun p => Bool.eqb (Ascii.eqb (Js.lower_char p) (Js.lower_char c))
                   (RegExp.char_eq_ci p c)) pat = true) ->
  forall s,
    Js.starts_with (Js.toLowerCase pat) (Js.toLowerCase s)
    = match RegExp.literal_ci pat s with Some _ => true | None => false end.
Proof.
  induction pat as [|p pat IH]; intros Hpat s; [reflexivity|].
  destruct s as [|c s]; [reflexivity|].
  pose proof (Hpat c) as Hc. simpl in Hc. apply andb_prop in Hc.
  destruct Hc as [Hc _]. apply Bool.eqb_prop in Hc.
  simpl. rewrite Hc.
  destruct (RegExp.char_eq_ci p c); [|reflexivity].
  apply IH. intros c'. specialize (Hpat c'). simpl in Hpat.
  apply andb_prop in Hpat. tauto.
Qed.

Lemma isOrderCompleted_search (text : string) :
  isOrderCompleted text
  = match RegExp.search (RegExp.literal_ci "[[ORDER_COMPLETED]]") text with
    | Some _ => true
    | None => false
    end.
Proof.
  unfold isOrderCompleted.
  pose proof (starts_with_lower _ marker_case_folding) as Hstart.
  change (Js.toLowerCase "[[ORDER_COMPLETED]]") with "[[order_completed]]" in Hstart.
  generalize dependent "[[order_completed]]". intros lower Hstart.
  induction text as [|c text IH].
  - pose proof (Hstart "") as H0. change (Js.toLowerCase "") with "" in H0.
    cbn [Js.toLowerCase Js.includes]. rewrite H0. reflexivity.
  - cbn [Js.toLowerCase Js.includes RegExp.search].
    change (String (Js.lower_char c) (Js.toLowerCase text))
      with (Js.toLowerCase (String c text)).
    rewrite (Hstart (String c text)), IH.
    destruct (RegExp.literal_ci _ (String c text)); [reflexivity|].
    now destruct (RegExp.search _ text) as [[pre r]|].
Qed.

Lemma search_finds_occurrence (pat occurrence rest : string) :
  RegExp.literal_ci pat occurrence = Some "" ->
  forall pre,
    RegExp.search (RegExp.literal_ci pat) (pre +:+ occurrence +:+ rest) <> None.
Proof.
  intros Hocc. induction pre as [|x pre IH].
  - change ("" +:+ occurrence +:+ rest) with (occurrence +:+ rest).
    rewrite (search_here _ _ _ (literal_ci_app pat occurrence "" rest Hocc)).
    discriminate.
  - change (String x pre +:+ occurrence +:+ rest)
      with (String x (pre +:+ occurrence +:+ rest)).
    cbn [RegExp.search].
    destruct (RegExp.literal_ci pat (String x (pre +:+ occurrence +:+ rest)));
      [congruence|].
    destruct (RegExp.search (RegExp.literal_ci pat) (pre +:+ occurrence +:+ rest))
      as [[p r]|]; [congruence | now elim IH].
Qed.

(** X2.  [isOrderCompleted] answers [true] exactly for the texts that hold
    the marker [[[ORDER_COMPLETED]]] somewhere, in any mix of letter cases:
    the test on the lower-cased text and the case-insensitive pattern of
    [stripOrderCompletedTag] see the same occurrences. *)
Theorem isOrderCompleted_iff_marker (text : string) :
  isOrderCompleted text = true
  <-> exists pre occurrence post,
        text = pre +:+ occurrence +:+ post
        /\ RegExp.literal_ci "[[ORDER_COMPLETED]]" occurrence = Some "".
Proof.
  rewrite isOrderCompleted_search. split.
  - destruct (RegExp.search _ text) as [[pre rest]|] eqn:E; [|discriminate].
    intros _. destruct (search_literal_first _ _ _ _ E) as (occ & -> & Hocc & _).
    now exists pre, occ, rest.
  - intros (pre & occ & post & -> & Hocc).
    pose proof (search_finds_occurrence _ occ post Hocc pre) as H.
    now destruct (RegExp.search _ _).
Qed.

Lemma isOrderCompleted_iff_marker_witness :
  isOrderCompleted "All set. [[Order_Completed]] Bye" = true.
Proof.
  apply (proj2 (isOrderCompleted_iff_marker "All set. [[Order_Completed]] Bye")).
  exists "All set. ", "[[Order_Completed]]", " Bye". split; reflexivity.
Defined.

(** ** Texts without marker, without tags *)

Lemma absent_here (pat s : string) :
  absent pat s -> RegExp.literal_ci pat s = None.
Proof.
  unfold absent. destruct s as [|c s]; cbn [RegExp.search];
    now destruct (RegExp.literal_ci pat _).
Qed.

Lemma absent_tail (pat s text : string) :
  absent pat text -> tail_of s text -> absent pat s.
Proof.
  intros H [skipped ->]. induction skipped as [|c skipped IH]; [exact H|].
  apply IH. now apply (absent_cons_inv pat c).
Qed.

Lemma absent_front (pat front back : string) :
  absent pat (front +:+ back) -> absent pat front.
Proof.
  induction front as [|c front IH]; intros H.
  - unfold absent. cbn [RegExp.search].
    destruct (RegExp.literal_ci pat "") as [r|] eqn:E; [|reflexivity].
    apply absent_here in H.
    pose proof (literal_ci_app pat "" r back E) as H'.
    change ("" +:+ back) with back in H, H'. congruence.
  - change (String c front +:+ back) with (String c (front +:+ back)) in H.
    apply absent_cons_inv in H. destruct H as [Hc H].
    apply absent_cons; [|now apply IH].
    destruct (RegExp.literal_ci pat (String c front)) as [r|] eqn:E; [|reflexivity].
    pose proof (literal_ci_app pat (String c front) r back E) as H'.
    change (String c front +:+ back) with (String c (front +:+ back)) in H'.
    congruence.
Qed.

Lemma tail_of_refl (s : string) : tail_of s s.
Proof. now exists "". Qed.

Lemma tail_of_cons (s : string) (c : ascii) (text : string) :
  tail_of s text -> tail_of s (String c text).
Proof. intros [skipped ->]. now exists (String c skipped). Qed.

Lemma trimStart_tail (s : string) : tail_of (Js.trimStart s) s.
Proof.
  induction s as [|c s IH]; [apply tail_of_refl|].
  simpl. destruct (Js.is_white_space c);
    [now apply tail_of_cons | apply tail_of_refl].
Qed.

Lemma trimEnd_front (s : string) : exists back, s = Js.trimEnd s +:+ back.
Proof.
  induction s as [|c s [back IH]]; [now exists ""|].
  simpl. destruct (Js.trimEnd s) as [|d r].
  - destruct (Js.is_white_space c).
    + now exists (String c s).
    + exists back. simpl in IH. now rewrite IH at 1.
  - exists back. now rewrite IH at 1.
Qed.

Lemma absent_trim (pat s : string) : absent pat s -> absent pat (Js.trim s).
Proof.
  intros H. unfold Js.trim.
  destruct (trimEnd_front (Js.trimStart s)) as [back Hback].
  apply (absent_front pat _ back). rewrite <- Hback.
  exact (absent_tail pat _ s H (trimStart_tail s)).
Qed.

Lemma trimEnd_idem (s : string) : Js.trimEnd (Js.trimEnd s) = Js.trimEnd s.
Proof.
  induction s as [|c s IH]; [reflexivity|].
  simpl. destruct (Js.trimEnd s) as [|d r] eqn:E.
  - destruct (Js.is_white_space c) eqn:Ec; [reflexivity|].
    simpl. now rewrite Ec.
  - cbn [Js.trimEnd] in IH |- *. fold (Js.trimEnd (String d r)) in IH |- *.
    now rewrite IH.
Qed.

Lemma trimStart_trimEnd (s : string) :
  Js.trimStart s = s -> Js.trimStart (Js.trimEnd s) = Js.trimEnd s.
Proof.
  destruct s as [|c s]; [reflexivity|].
  intros H. simpl in H.
  destruct (Js.is_white_space c) eqn:Ec.
  - exfalso. pose proof (trimStart_tail s) as [skipped Hs].
    rewrite H in Hs. apply (f_equal String.length) in Hs.
    rewrite length_append in Hs. simpl in Hs. lia.
  - simpl. destruct (Js.trimEnd s); rewrite ?Ec; simpl; now rewrite Ec.
Qed.

Lemma trim_idem (s : string) : Js.trim (Js.trim s) = Js.trim s.
Proof.
  unfold Js.trim.
  now rewrite (trimStart_trimEnd _ (trimStart_idem s)), trimEnd_idem.
Qed.

Lemma marker_length_absent (s : string) :
  absent "[[ORDER_COMPLETED]]" s -> RegExp.marker_length s = None.
Proof.
  intros H. unfold RegExp.marker_length.
  now rewrite (absent_here _ _ (absent_tail _ _ _ H (trimStart_tail s))).
Qed.

Lemma scrub_absent (s : string) : absent "[[ORDER_COMPLETED]]" s -> scrub s = s.
Proof.
  unfold scrub. induction s as [|c s IH]; intros H; [reflexivity|].
  cbn [RegExp.remove_all]. rewrite (marker_length_absent _ H).
  apply absent_cons_inv in H. now rewrite (IH (proj2 H)).
Qed.

Lemma isOrderCompleted_false (text : string) :
  isOrderCompleted text = false -> absent "[[ORDER_COMPLETED]]" text.
Proof.
  rewrite isOrderCompleted_search. unfold absent.
  now destruct (RegExp.search _ text).
Qed.

Lemma strip_only_trims (text : string) :
  absent "[[ORDER_COMPLETED]]" text -> stripOrderCompletedTag text = Js.trim text.
Proof.
  intros H. unfold stripOrderCompletedTag. fold (scrub text).
  now rewrite (scrub_absent text H).
Qed.

(** X3.  On a text [isOrderCompleted] does not flag,
    [stripOrderCompletedTag] only trims: no character inside the text is
    removed. *)
Theorem strip_unflagged_only_trims (text : string) :
  isOrderCompleted text = false ->
  stripOrderCompletedTag text = Js.trim text.
Proof. intros H. now apply strip_only_trims, isOrderCompleted_false. Qed.

Lemma strip_unflagged_only_trims_witness :
  stripOrderCompletedTag "  Which [printer] is it?  " = "Which [printer] is it?".
Proof.
  exact (strip_unflagged_only_trims "  Which [printer] is it?  " eq_refl).
Defined.

Lemma search_none_tails {R : Type} (m : string -> option R) (text : string) :
  (forall s, tail_of s text -> m s = None) -> RegExp.search m text = None.
Proof.
  induction text as [|c text IH]; intros H; cbn [RegExp.search].
  - now rewrite (H "" (tail_of_refl "")).
  - rewrite (H _ (tail_of_refl _)), IH; [reflexivity|].
    intros s Hs. apply H. now apply tail_of_cons.
Qed.

Lemma tag_pair_none (tag text : string) :
  absent ("<" +:+ tag +:+ ">") text \/ absent ("</" +:+ tag +:+ ">") text ->
  RegExp.search (RegExp.tag_pair tag) text = None.
Proof.
  intros H. apply search_none_tails. intros s Hs. unfold RegExp.tag_pair.
  destruct (RegExp.literal_ci ("<" +:+ tag +:+ ">") s) as [rest|] eqn:E;
    [|reflexivity].
  destruct H as [H|H].
  - now rewrite (absent_here _ _ (absent_tail _ _ _ H Hs)) in E.
  - destruct (literal_ci_split _ _ _ E) as (occurrence & -> & _).
    apply (absent_tail _ rest (occurrence +:+ rest)).
    + exact (absent_tail _ _ _ H Hs).
    + now exists occurrence.
Qed.

(** X4.  A field whose opening tag or whose closing tag is missing from the
    text is [null]; nothing is thrown and the other fields are not
    affected. *)
Theorem get_none_without_pair (text tag : string) :
  absent ("<" +:+ tag +:+ ">") text \/ absent ("</" +:+ tag +:+ ">") text ->
  get text tag = None
  /\ (tag = "su" -> summary (extractTicketFields text) = None)
  /\ (tag = "de" -> description (extractTicketFields text) = None)
  /\ (tag = "ca" -> category (extractTicketFields text) = None).
Proof.
  intros H.
  assert (get text tag = None) as Hget
    by (unfold get; now rewrite (tag_pair_none tag text H)).
  split; [exact Hget|]. repeat split; intros ->; exact Hget.
Qed.

Lemma get_none_without_pair_witness :
  extractTicketFields "<su>Printer</su><de>never closed<ca>Hardware</ca>"
  = {| summary := Some "Printer"; description := None;
       category := Some "Hardware" |}
  /\ description
       (extractTicketFields "<su>Printer</su><de>never closed<ca>Hardware</ca>")
     = None.
Proof.
  destruct (get_none_without_pair
              "<su>Printer</su><de>never closed<ca>Hardware</ca>" "de"
              (or_intror eq_refl)) as (_ & _ & Hde & _).
  split; [reflexivity | exact (Hde eq_refl)].
Defined.

Lemma sanitize_only_trims (text : string) :
  absent "[[ORDER_COMPLETED]]" text ->
  absent "<ticket>" text \/ absent "</ticket>" text ->
  sanitize text = Js.trim text.
Proof.
  intros Hmarker Hticket. unfold sanitize.
  rewrite (strip_only_trims text Hmarker).
  unfold stripTicketBlock.
  rewrite (tag_pair_none "ticket" (Js.trim text)).
  - apply trim_idem.
  - destruct Hticket as [H|H]; [left | right]; now apply absent_trim.
Qed.

(** X5.  A reply without completion marker and without a whole [<ticket>]
    element (the opening or the closing tag is missing) reaches the user as it
    is, trimmed: the two strip steps remove nothing from inside it. *)
Theorem sanitize_ordinary_reply (text : string) :
  isOrderCompleted text = false ->
  absent "<ticket>" text \/ absent "</ticket>" text ->
  sanitize text = Js.trim text.
Proof.
  intros Hmarker Hticket.
  now apply sanitize_only_trims; [apply isOrderCompleted_false|].
Qed.

Lemma sanitize_ordinary_reply_witness :
  sanitize "  Is the <ticket> already open?  " = "Is the <ticket> already open?".
Proof.
  exact (sanitize_ordinary_reply "  Is the <ticket> already open?  "
           eq_refl (or_intror eq_refl)).
Defined.

(** ** A whole turn, whatever the backend does *)

Lemma summarize_return_short (env : Env) (sid : JsValue) (w w1 : World)
  (context : list Message) :
  summarizeContextIfNeeded env sid w = (w1, Return tt) ->
  sessions w1 !! sid = Some context ->
  length context <= 21.
Proof.
  intros Hsum Hctx.
  destruct (sessions w !! sid) as [[|context0 rest]|] eqn:E.
  - rewrite (summarize_short env sid w [] E) in Hsum by (simpl; lia).
    injection Hsum as <-. rewrite E in Hctx. injection Hctx as <-. simpl. lia.
  - destruct (le_lt_dec (length rest) MAX_HISTORY_MESSAGES_BEFORE_SUMMARY) as [H|H].
    + rewrite (summarize_short env sid w _ E H) in Hsum.
      injection Hsum as <-. rewrite E in Hctx. injection Hctx as <-.
      unfold MAX_HISTORY_MESSAGES_BEFORE_SUMMARY in H. simpl. lia.
    + rewrite (summarize_long env sid w _ _ E H) in Hsum.
      destruct (callOpenAIWithRetry env (summary_request rest) 3 w)
        as [w' [[r|]|err]]; try discriminate.
      injection Hsum as <-. simpl in Hctx. rewrite lookup_insert_eq in Hctx.
      injection Hctx as <-. simpl. lia.
  - rewrite (summarize_missing env sid w E) in Hsum.
    injection Hsum as <-. congruence.
Qed.

Lemma summarize_throw_store (env : Env) (sid : JsValue) (w w1 : World)
  (err : JsError) :
  summarizeContextIfNeeded env sid w = (w1, Throw err) ->
  sessions w1 = sessions w.
Proof.
  intros Hsum.
  destruct (sessions w !! sid) as [[|context0 rest]|] eqn:E.
  - now rewrite (summarize_short env sid w [] E) in Hsum by (simpl; lia).
  - destruct (le_lt_dec (length rest) MAX_HISTORY_MESSAGES_BEFORE_SUMMARY) as [H|H].
    + now rewrite (summarize_short env sid w _ E H) in Hsum.
    + rewrite (summarize_long env sid w _ _ E H) in Hsum.
      pose proof (call_sessions env (summary_request rest) 3 w) as Hcall.
      destruct (callOpenAIWithRetry env (summary_request rest) 3 w)
        as [w' [[r|]|e]]; try discriminate; now injection Hsum as <- _.
  - now rewrite (summarize_missing env sid w E) in Hsum.
Qed.

(** Where a turn stands when the summariser is through. *)
Lemma prepare_cases (env : Env) (sid : JsValue) (w : World) :
  exists w1,
    (exists err,
       summarizeContextIfNeeded env sid (getContextForSession sid w).1
       = (w1, Throw err))
    \/ (summarizeContextIfNeeded env sid (getContextForSession sid w).1
        = (w1, Return tt)
        /\ exists context, sessions w1 !! sid = Some context
                           /\ length context <= 21).
Proof.
  destruct (getContext_stored sid w) as (w0 & context0 & E0 & Hc0).
  pose proof (summarize_keeps_session env sid w0 (ex_intro _ _ Hc0)) as [context Hc].
  rewrite E0. simpl.
  destruct (summarizeContextIfNeeded env sid w0) as [w1 [[]|err]] eqn:Hsum.
  - exists w1. right. split; [reflexivity|]. exists context. split; [exact Hc|].
    exact (summarize_return_short env sid w0 w1 context Hsum Hc).
  - exists w1. left. now exists err.
Qed.

(** X6.  The reply a turn returns never starts or ends with white space:
    trimming it changes nothing. *)
Theorem reply_is_trimmed (env : Env) (message : string) (sessionId : JsValue)
  (w w' : World) (result : ChatResult) :
  handleChatMessage env message sessionId w = (w', Return result) ->
  Js.trim (reply result) = reply result.
Proof.
  intros Hrun.
  destruct (prepare_cases env (session_key sessionId) w)
    as (w1 & [[err Hsum]|(Hsum & context & Hctx & _)]).
  - now rewrite (handle_summary_throw env message sessionId w w1 err Hsum) in Hrun.
  - rewrite (handle_run env message sessionId w w1 context Hsum Hctx) in Hrun.
    cbv zeta in Hrun.
    destruct (callOpenAIWithRetry env _ 3 _) as [w2 [[r|]|err]];
      try discriminate.
    assert (forall text, Js.trim (sanitize text) = sanitize text) as Htrim
      by (intros text; unfold sanitize, stripTicketBlock; apply trim_idem).
    destruct (isOrderCompleted _); [destruct (jira env _ _ _)|];
      injection Hrun as _ <-; apply Htrim.
Qed.

Lemma reply_is_trimmed_witness :
  (handleChatMessage backend_greets "hi" (JStr "s1") initial_world).2
  = Return {| reply := "Hello!"; orderCompleted := false; jiraIssueKey := None |}
  /\ Js.trim "Hello!" = "Hello!".
Proof.
  split; [reflexivity|].
  exact (reply_is_trimmed backend_greets "hi" (JStr "s1") initial_world _
           {| reply := "Hello!"; orderCompleted := false; jiraIssueKey := None |}
           eq_refl).
Defined.

(** X7.  Summarising is idempotent: once the summariser has returned, a
    second run on the state it left - with any backend - makes no backend
    call and changes nothing. *)
Theorem summarize_idempotent (env env' : Env) (sid : JsValue) (w w1 : World) :
  summarizeContextIfNeeded env sid w = (w1, Return tt) ->
  summarizeContextIfNeeded env' sid w1 = (w1, Return tt).
Proof.
  intros Hsum.
  destruct (sessions w1 !! sid) as [context|] eqn:E.
  - apply (summarize_short env' sid w1 context E).
    pose proof (summarize_return_short env sid w w1 context Hsum E) as H.
    unfold MAX_HISTORY_MESSAGES_BEFORE_SUMMARY.
    destruct context as [|context0 rest]; [simpl; lia|].
    change (drop 1 (context0 :: rest)) with rest. simpl in H. lia.
  - now apply summarize_missing.
Qed.

Lemma summarize_idempotent_witness :
  summarizeContextIfNeeded backend_down (JStr "s1")
    (summarizeContextIfNeeded backend_summarises (JStr "s1") long_world).1
  = ((summarizeContextIfNeeded backend_summarises (JStr "s1") long_world).1,
     Return tt).
Proof.
  exact (summarize_idempotent backend_summarises backend_down (JStr "s1")
           long_world _ eq_refl).
Defined.

(** X8.  A turn leaves every session either untouched or with at most 23
    messages, whatever its outcome and however long the session was; so a
    store in which no session holds more than 23 messages stays such a
    store. *)
Theorem turn_keeps_sessions_short (env : Env) (message : string)
  (sessionId : JsValue) (w : World) :
  (forall k context,
     sessions (handleChatMessage env message sessionId w).1 !! k = Some context ->
     length context <= 23 \/ sessions w !! k = Some context)
  /\ (store_within 23 (sessions w) ->
      store_within 23 (sessions (handleChatMessage env message sessionId w).1)).
Proof.
  assert (forall k context,
            sessions (handleChatMessage env message sessionId w).1 !! k = Some context ->
            length context <= 23 \/ sessions w !! k = Some context) as Hcore.
  { intros k context' Hk.
    destruct (decide (k = session_key sessionId)) as [->|Hne];
      [|right; now rewrite <- (handle_frame env message sessionId w k Hne)].
    destruct (prepare_cases env (session_key sessionId) w)
      as (w1 & [[err Hsum]|(Hsum & context & Hctx & Hlen)]).
    - rewrite (handle_summary_throw env message sessionId w w1 err Hsum) in Hk.
      simpl in Hk. rewrite (summarize_throw_store _ _ _ _ _ Hsum) in Hk.
      unfold getContextForSession in Hk.
      destruct (sessions w !! session_key sessionId) eqn:E; simpl in Hk.
      + right. congruence.
      + rewrite lookup_insert_eq in Hk. injection Hk as <-. left. simpl. lia.
    - rewrite (handle_run env message sessionId w w1 context Hsum Hctx) in Hk.
      cbv zeta in Hk.
      pose proof (call_sessions env
                    (chat_request (context ++ [user_message message])) 3
                    (with_sessions
                       <[session_key sessionId := context ++ [user_message message]]>
                       w1)) as Hcall.
      left.
      destruct (callOpenAIWithRetry env _ 3 _) as [w2 [[r|]|err]];
        simpl in Hcall, Hk.
      + destruct (isOrderCompleted _); [destruct (jira env _ _ _)|];
          simpl in Hk; rewrite lookup_insert_eq in Hk; injection Hk as <-;
          rewrite ?length_app; simpl; lia.
      + rewrite Hcall, lookup_insert_eq in Hk. injection Hk as <-.
        rewrite length_app. simpl. lia.
      + rewrite Hcall, lookup_insert_eq in Hk. injection Hk as <-.
        rewrite length_app. simpl. lia. }
  split; [exact Hcore|].
  intros Hstore k context Hk.
  destruct (Hcore k context Hk) as [H|H]; [exact H | exact (Hstore k context H)].
Qed.

Lemma turn_keeps_sessions_short_witness :
  store_within 23
    (sessions (handleChatMessage backend_greets "hi" (JStr "s1") long_world).1).
Proof.
  apply (proj2 (turn_keeps_sessions_short backend_greets "hi" (JStr "s1") long_world)).
  intros k context Hk. destruct (decide (k = JStr "s1")) as [->|Hne].
  - vm_compute in Hk. injection Hk as <-. vm_compute. lia.
  - unfold long_world in Hk. simpl in Hk.
    now rewrite lookup_singleton_ne in Hk.
Defined.

(** ** Filing a ticket *)

Lemma jira_summary_nonempty (fields : TicketFields) : jira_summary fields <> "".
Proof. unfold jira_summary. now destruct (summary fields) as [[|c s]|]. Qed.

Lemma jira_description_nonempty (fields : TicketFields) (cleanedReply : string) :
  jira_description fields cleanedReply <> "".
Proof.
  unfold jira_description.
  destruct (description fields) as [[|c s]|]; try discriminate;
    now destruct cleanedReply.
Qed.

(** X9.  When the reply of a turn carries the completion marker, the session
    is reset to the system instruction exactly when Jira took the issue: then
    the turn returns the issue key; when the Jira request fails, the turn
    still returns normally, with no key, and the session keeps the whole
    exchange, the sanitised reply last. *)
Theorem completed_turn_resets_iff_filed (env : Env) (message : string)
  (sessionId : JsValue) (w w1 w2 : World) (context : list Message)
  (r : Response) :
  let sid := session_key sessionId in
  let asked := context ++ [user_message message] in
  let text := Js.or_else (output_text r) reply_fallback in
  let fields := extractTicketFields text in
  let filed :=
    jira env (S (ticks w2)) (jira_summary fields)
      (jira_description fields (sanitize text)) in
  summarizeContextIfNeeded env sid (getContextForSession sid w).1 = (w1, Return tt) ->
  sessions w1 !! sid = Some context ->
  callOpenAIWithRetry env (chat_request asked) 3 (with_sessions <[sid := asked]> w1)
  = (w2, Return (Some r)) ->
  isOrderCompleted text = true ->
  (handleChatMessage env message sessionId w).2
  = Return {| reply := sanitize text; orderCompleted := true;
              jiraIssueKey := match filed with Some key => key | None => None end |}
  /\ sessions (handleChatMessage env message sessionId w).1 !! sid
     = Some (match filed with
             | Some _ => [system_message]
             | None => asked ++ [assistant_message (sanitize text)]
             end).
Proof.
  intros sid asked text fields filed Hsum Hctx Hcall Hdone.
  rewrite (handle_run env message sessionId w w1 context Hsum Hctx).
  cbv zeta. subst sid asked. rewrite Hcall. fold text. rewrite Hdone.
  fold fields. cbn [ticks with_sessions]. fold filed.
  destruct filed as [key|]; simpl; (split; [reflexivity | apply lookup_insert_eq]).
Qed.

Lemma completed_turn_resets_iff_filed_witness :
  (handleChatMessage backend_marker_only "ok" (JStr "s1") initial_world).2
  = Return {| reply := ""; orderCompleted := true; jiraIssueKey := None |}
  /\ sessions (handleChatMessage backend_marker_only "ok" (JStr "s1") initial_world).1
       !! JStr "s1"
     = Some [system_message; user_message "ok"; assistant_message ""].
Proof.
  exact (completed_turn_resets_iff_filed backend_marker_only "ok" (JStr "s1")
           initial_world _ _ [system_message]
           {| output_text := Some "[[ORDER_COMPLETED]]" |}
           eq_refl eq_refl eq_refl eq_refl).
Defined.

Lemma outbox_snoc (events : list Event) (e : Event) :
  outbox (events ++ [e]) = outbox events ++ (if is_outgoing e then [e] else []).
Proof.
  unfold outbox. rewrite filter_app. f_equal.
  now destruct e.
Qed.

Lemma retry_loop_outbox (env : Env) (payload : Payload) (retries : nat) :
  forall left i w,
    outbox (trace (retry_loop env payload retries left i w).1) = outbox (trace w).
Proof.
  induction left as [|left IH]; intros i w; [reflexivity|].
  cbn [retry_loop]. unfold try_catch, bind, create.
  destruct (openai env (ticks w) payload) as [err|response]; cbn.
  - destruct (_ && _); cbn.
    + rewrite IH. cbn. rewrite !outbox_snoc. cbn. now rewrite !app_nil_r.
    + rewrite outbox_snoc. cbn. now rewrite app_nil_r.
  - rewrite outbox_snoc. cbn. now rewrite app_nil_r.
Qed.

Lemma summarize_outbox (env : Env) (sid : JsValue) (w : World) :
  outbox (trace (summarizeContextIfNeeded env sid w).1) = outbox (trace w).
Proof.
  destruct (sessions w !! sid) as [[|context0 rest]|] eqn:E.
  - now rewrite (summarize_short env sid w [] E) by (simpl; lia).
  - destruct (le_lt_dec (length rest) MAX_HISTORY_MESSAGES_BEFORE_SUMMARY) as [H|H].
    + now rewrite (summarize_short env sid w _ E H).
    + rewrite (summarize_long env sid w _ _ E H).
      pose proof (retry_loop_outbox env (summary_request rest) 3 3 0 w) as Hcall.
      fold (callOpenAIWithRetry env (summary_request rest) 3) in Hcall.
      now destruct (callOpenAIWithRetry env (summary_request rest) 3 w)
        as [w' [[r|]|e]].
  - now rewrite summarize_missing.
Qed.

(** X10.  Mail and Jira are addressed exactly once each, the mail first,
    in a turn that returns a completed reply, and never in any other turn
    (one that returns an ordinary reply, or throws).  The mail carries the
    reply the turn returns; the summary and the description sent to Jira are
    never empty. *)
Theorem turn_outbox (env : Env) (message : string) (sessionId : JsValue)
  (w : World) :
  match handleChatMessage env message sessionId w with
  | (w', Return result) =>
      if orderCompleted result then
        exists summary description,
          summary <> "" /\ description <> ""
          /\ outbox (trace w')
             = outbox (trace w) ++ [EvMail (reply result); EvJira summary description]
      else outbox (trace w') = outbox (trace w)
  | (w', Throw _) => outbox (trace w') = outbox (trace w)
  end.
Proof.
  assert (outbox (trace (getContextForSession (session_key sessionId) w).1)
          = outbox (trace w)) as H0
    by (unfold getContextForSession; now destruct (sessions w !! _)).
  pose proof (summarize_outbox env (session_key sessionId)
                (getContextForSession (session_key sessionId) w).1) as H1.
  rewrite H0 in H1.
  destruct (prepare_cases env (session_key sessionId) w)
    as (w1 & [[err Hsum]|(Hsum & context & Hctx & _)]); rewrite Hsum in H1;
    simpl in H1.
  - now rewrite (handle_summary_throw env message sessionId w w1 err Hsum).
  - rewrite (handle_run env message sessionId w w1 context Hsum Hctx).
    cbv zeta.
    pose proof (retry_loop_outbox env
                  (chat_request (context ++ [user_message message])) 3 3 0
                  (with_sessions
                     <[session_key sessionId := context ++ [user_message message]]>
                     w1)) as Hcall.
    fold (callOpenAIWithRetry env
            (chat_request (context ++ [user_message message])) 3) in Hcall.
    simpl in Hcall. rewrite H1 in Hcall.
    destruct (callOpenAIWithRetry env _ 3 _) as [w2 [[r|]|err]];
      simpl in Hcall; try exact Hcall.
    destruct (isOrderCompleted _); [|exact Hcall].
    assert (forall s d (w3 : World),
              trace w3 = trace w2 ->
              outbox (trace (tick (emit (EvJira s d)
                                     (tick (emit (EvMail
                                        (sanitize (Js.or_else (output_text r)
                                                     reply_fallback))) w3)))))
              = outbox (trace w)
                ++ [EvMail (sanitize (Js.or_else (output_text r) reply_fallback));
                    EvJira s d]) as Hsent.
    { intros s d w3 Hw3. cbn. rewrite !outbox_snoc, Hw3, Hcall. cbn.
      now rewrite <- app_assoc. }
    destruct (jira env _ _ _) as [key|]; cbn [orderCompleted reply];
      eexists _, _;
      (split; [apply jira_summary_nonempty|]);
      (split; [apply jira_description_nonempty|]);
      now apply Hsent.
Qed.

Example ticket_turn_outbox :
  outbox (trace (handleChatMessage backend_files_ticket "that is all" (JStr "s1")
                   initial_world).1)
  = [EvMail "Done."; EvJira "Printer" "It is dead"].
Proof. vm_compute. reflexivity. Qed.

(** ** The first turn of a conversation *)

(** X11.  The first turn under a key the store does not have, answered at
    the first attempt by an ordinary reply (no completion marker, no whole
    [<ticket>] element): the turn returns the trimmed reply, not completed,
    without issue key; no field is extracted from what it returns; and the
    session is the system instruction, the user message and the trimmed
    reply. *)
Theorem first_turn_ordinary_reply (env : Env) (message : string)
  (sessionId : JsValue) (w : World) (c : ascii) (text : string) :
  let sid := session_key sessionId in
  let asked := [system_message; user_message message] in
  sessions w !! sid = None ->
  openai env (ticks w) (chat_request asked)
  = inr {| output_text := Some (String c text) |} ->
  isOrderCompleted (String c text) = false ->
  absent "<ticket>" (String c text) \/ absent "</ticket>" (String c text) ->
  handleChatMessage env message sessionId w
  = ({| sessions :=
          <[sid := asked ++ [assistant_message (Js.trim (String c text))]]>
            (sessions w);
        ticks := S (ticks w);
        trace := trace w ++ [EvCreate (chat_request asked)] |},
     Return {| reply := Js.trim (String c text); orderCompleted := false;
               jiraIssueKey := None |}).
Proof.
  intros sid asked Hnew Hanswer Hmarker Hticket.
  assert (getContextForSession sid w
          = (with_sessions <[sid := [system_message]]> w, Return [system_message]))
    as Hopen by now apply getContext_fresh.
  assert (summarizeContextIfNeeded env sid (getContextForSession sid w).1
          = (with_sessions <[sid := [system_message]]> w, Return tt)) as Hsum.
  { rewrite Hopen. apply (summarize_short env sid _ [system_message]).
    - simpl. apply lookup_insert_eq.
    - simpl. lia. }
  rewrite (handle_run env message sessionId w _ [system_message] Hsum)
    by (simpl; apply lookup_insert_eq).
  cbv zeta. fold sid. change ([system_message] ++ [user_message message]) with asked.
  unfold callOpenAIWithRetry.
  rewrite (retry_loop_run env (chat_request asked) 3 0 3 0); simpl; try lia.
  - rewrite Nat.add_0_r, Hanswer. simpl.
    rewrite Hmarker,
      (sanitize_only_trims _ (isOrderCompleted_false _ Hmarker) Hticket).
    unfold with_sessions. simpl. rewrite !insert_insert_eq.
    replace (ticks w + 1) with (S (ticks w)) by lia. reflexivity.
  - left. rewrite Nat.add_0_r. simpl. now rewrite Hanswer.
Qed.

Lemma first_turn_ordinary_reply_witness :
  handleChatMessage backend_greets "hi" (JStr "s1") initial_world
  = ({| sessions :=
          <[JStr "s1" := [system_message; user_message "hi"]
                         ++ [assistant_message (Js.trim "Hello!")]]>
            (sessions initial_world);
        ticks := S (ticks initial_world);
        trace := trace initial_world
                 ++ [EvCreate (chat_request [system_message; user_message "hi"])] |},
     Return {| reply := Js.trim "Hello!"; orderCompleted := false;
               jiraIssueKey := None |}).
Proof.
  exact (first_turn_ordinary_reply backend_greets "hi" (JStr "s1") initial_world
           "H" "ello!" eq_refl eq_refl eq_refl (or_introl eq_refl)).
Defined.

(** ** Creating and resetting sessions *)

(** X12.  [getContextForSession] is get-or-create: it returns what is stored
    under the key afterwards; an existing session is returned as it is and
    the state is not touched; a missing one is created as the system
    instruction alone; no other key changes; and a second call changes
    nothing and returns the same sequence. *)
Theorem getContext_get_or_create (sid : JsValue) (w : World) :
  exists context,
    (getContextForSession sid w).2 = Return context
    /\ sessions (getContextForSession sid w).1 !! sid = Some context
    /\ (forall stored, sessions w !! sid = Some stored ->
          context = stored /\ (getContextForSession sid w).1 = w)
    /\ (sessions w !! sid = None -> context = [system_message])
    /\ (forall k, k <> sid ->
          sessions (getContextForSession sid w).1 !! k = sessions w !! k)
    /\ getContextForSession sid (getContextForSession sid w).1
       = ((getContextForSession sid w).1, Return context).
Proof.
  destruct (sessions w !! sid) as [stored|] eqn:E.
  - exists stored. rewrite (getContext_existing sid w stored E). simpl.
    split; [reflexivity|]. split; [exact E|]. split; [|split; [|split]].
    + intros ? [= <-]. now split.
    + discriminate.
    + reflexivity.
    + now apply getContext_existing.
  - exists [system_message]. rewrite (getContext_fresh sid w E). simpl.
    split; [reflexivity|]. split; [apply lookup_insert_eq|].
    split; [|split; [|split]].
    + discriminate.
    + reflexivity.
    + intros k Hk. now apply lookup_insert_ne.
    + apply getContext_existing. simpl. apply lookup_insert_eq.
Qed.

Lemma reset_existing (sessionId : JsValue) (w : World) (context : list Message) :
  truthy sessionId = true -> sessions w !! sessionId = Some context ->
  resetSession sessionId w = (with_sessions (delete sessionId) w, Return tt).
Proof.
  intros Htruthy H. unfold resetSession.
  rewrite Htruthy, bool_decide_eq_true_2; [reflexivity | eauto].
Qed.

Lemma reset_missing (sessionId : JsValue) (w : World) :
  sessions w !! sessionId = None -> resetSession sessionId w = (w, Return tt).
Proof.
  intros H. unfold resetSession.
  rewrite bool_decide_eq_false_2, andb_false_r; [reflexivity|].
  rewrite H. now intros [x Hx].
Qed.

(** X13.  Resetting a session under a truthy key removes it and nothing
    else, a second reset changes nothing, and the next reference to the key
    starts from the system instruction alone, whatever the history was. *)
Theorem reset_forgets (sessionId : JsValue) (w : World) :
  truthy sessionId = true ->
  sessions (resetSession sessionId w).1 !! sessionId = None
  /\ (forall k, k <> sessionId ->
        sessions (resetSession sessionId w).1 !! k = sessions w !! k)
  /\ resetSession sessionId (resetSession sessionId w).1
     = ((resetSession sessionId w).1, Return tt)
  /\ (getContextForSession sessionId (resetSession sessionId w).1).2
     = Return [system_message].
Proof.
  intros Htruthy.
  assert (sessions (resetSession sessionId w).1 !! sessionId = None) as Hgone.
  { destruct (sessions w !! sessionId) as [context|] eqn:E.
    - rewrite (reset_existing _ _ _ Htruthy E). simpl. apply lookup_delete_eq.
    - now rewrite (reset_missing _ _ E). }
  split; [exact Hgone|]. split; [|split].
  - intros k Hk. destruct (sessions w !! sessionId) as [context|] eqn:E.
    + rewrite (reset_existing _ _ _ Htruthy E). simpl. now apply lookup_delete_ne.
    + now rewrite (reset_missing _ _ E).
  - now apply reset_missing.
  - now rewrite (getContext_fresh _ _ Hgone).
Qed.

Lemma reset_forgets_witness :
  (getContextForSession (JStr "s1") (resetSession (JStr "s1") long_world).1).2
  = Return [system_message].
Proof.
  destruct (reset_forgets (JStr "s1") long_world eq_refl) as (_ & _ & _ & H).
  exact H.
Defined.

(** X14.  The reset route does nothing for a falsy identifier.  The chat
    handler files the turns of a falsy identifier under "default-session", but
    a reset with the same identifier does not reach that session: it is
    still there afterwards, unchanged. *)
Theorem reset_misses_default_session (env : Env) (message : string)
  (sessionId : JsValue) (w : World) :
  truthy sessionId = false ->
  resetSession sessionId w = (w, Return tt)
  /\ is_Some (sessions
                (resetSession sessionId
                   (handleChatMessage env message sessionId w).1).1
                !! JStr "default-session")
  /\ sessions
       (resetSession sessionId (handleChatMessage env message sessionId w).1).1
     = sessions (handleChatMessage env message sessionId w).1.
Proof.
  intros Hfalsy.
  assert (forall w0, resetSession sessionId w0 = (w0, Return tt)) as Hnoop
    by (intros w0; unfold resetSession; now rewrite Hfalsy).
  split; [apply Hnoop|]. rewrite Hnoop. simpl. split; [|reflexivity].
  pose proof (handle_session_exists env message sessionId w) as H.
  unfold session_key in H. now rewrite Hfalsy in H.
Qed.

Lemma reset_misses_default_session_witness :
  sessions
    (resetSession JUndefined
       (handleChatMessage backend_greets "hi" JUndefined initial_world).1).1
    !! JStr "default-session"
  = Some [system_message; user_message "hi"; assistant_message "Hello!"].
Proof.
  destruct (reset_misses_default_session backend_greets "hi" JUndefined
              initial_world eq_refl) as (_ & _ & H).
  rewrite H. vm_compute. reflexivity.
Defined.

(** ** The sentiment classifier *)

Lemma sentiment_of_label (output : option string) :
  sentiment_of output = "rude" \/ sentiment_of output = "offensive"
  \/ sentiment_of output = "safe".
Proof.
  unfold sentiment_of.
  destruct (Js.includes _ "rude"); [now left|].
  destruct (Js.includes _ "offensive"); [now right; left|].
  destruct (Js.includes _ "safe"); now right; right.
Qed.

(** X15.  [getSentimentForMessage] leaves the session store alone; when it
    returns, the label is "rude", "offensive" or "safe", whatever the backend
    wrote; when it throws, the error is the one a backend attempt of this
    call ended with; and a response without output text, or with white space
    only, counts as "safe". *)
Theorem sentiment_labels (env : Env) (message : string) (w : World) :
  sessions (getSentimentForMessage env message w).1 = sessions w
  /\ match (getSentimentForMessage env message w).2 with
     | Return label => label = "rude" \/ label = "offensive" \/ label = "safe"
     | Throw err =>
         exists k, k < 3
           /\ openai env (ticks w + k) (sentiment_request message) = inl err
     end
  /\ sentiment_of None = "safe"
  /\ (forall text, Js.trim text = "" -> sentiment_of (Some text) = "safe").
Proof.
  unfold getSentimentForMessage, bind.
  pose proof (call_sessions env (sentiment_request message) 3 w) as Hstore.
  destruct (last_attempt_exists env (sentiment_request message) 3 (ticks w)
              ltac:(lia)) as (k & Hk & Hbefore & Hlast).
  pose proof (retry_loop_run env (sentiment_request message) 3 k 3 0 w
                eq_refl Hk Hbefore Hlast) as Hrun.
  fold (callOpenAIWithRetry env (sentiment_request message) 3) in Hrun.
  rewrite Hrun in Hstore |- *. simpl in Hstore.
  destruct (openai env (ticks w + k) (sentiment_request message))
    as [err|r] eqn:E; simpl.
  - split; [reflexivity|]. split; [now exists k|].
    split; [reflexivity|]. intros text Htrim. unfold sentiment_of.
    now rewrite Htrim.
  - split; [reflexivity|]. split; [apply sentiment_of_label|].
    split; [reflexivity|]. intros text Htrim. unfold sentiment_of.
    now rewrite Htrim.
Qed.

(** ** The routes *)

Section RouteProperties.

Variable env : Env.
Variable code_of : JsError -> option string.

(** X16.  [POST /api/chat] without a message, or with the empty string as
    message, is answered 400 and nothing happens: no session is created, no
    backend call is made.  The WhatsApp webhook has no such guard: the same
    missing or empty text runs a whole turn with the empty string as user
    message, and the session of the sender exists afterwards. *)
Theorem empty_message_by_route (text : option string) (sessionId : JsValue)
  (from : option string) (w : World) :
  Js.or_else text "" = "" ->
  chatRoute env code_of {| body_message := text; body_sessionId := sessionId |} w
  = (w, {| chat_status := 400;
           chat_payload := ErrorJson "Missing 'message' in body" "" |})
  /\ (whatsappRoute env {| From := from; Body := text |} w).1
     = (handleChatMessage env "" (from_value from) w).1
  /\ is_Some (sessions (whatsappRoute env {| From := from; Body := text |} w).1
                !! session_key (from_value from)).
Proof.
  intros Hempty.
  assert ((whatsappRoute env {| From := from; Body := text |} w).1
          = (handleChatMessage env "" (from_value from) w).1) as Hturn.
  { unfold whatsappRoute. cbn [From Body]. rewrite Hempty.
    now destruct (handleChatMessage env "" (from_value from) w) as [w' [res|err]]. }
  split; [|split; [exact Hturn|]].
  - unfold chatRoute. cbn [body_message].
    now destruct text as [[|c s]|].
  - rewrite Hturn. apply handle_session_exists.
Qed.

Lemma chat_route_overloaded (c : ascii) (text : string) (sessionId : JsValue)
  (w : World) (context : list Message) :
  let message := String c text in
  let sid := session_key sessionId in
  let asked := context ++ [user_message message] in
  sessions w !! sid = Some context ->
  length (drop 1 context) <= 20 ->
  (forall j, j < 3 ->
     rate_limited (openai env (ticks w + j) (chat_request asked)) = true) ->
  chatRoute env code_of
    {| body_message := Some message; body_sessionId := sessionId |} w
  = ({| sessions := <[sid := asked]> (sessions w);
        ticks := ticks w + 3;
        trace := trace w ++ attempts (chat_request asked) 0 2 |},
     {| chat_status := 429;
        chat_payload :=
          ErrorJson "rate_limited"
            "I’m getting a bit overwhelmed 😅. Try again shortly!" |}).
Proof.
  intros message sid asked Hctx Hlen Hlimited.
  assert (summarizeContextIfNeeded env sid (getContextForSession sid w).1
          = (w, Return tt)) as Hsum.
  { rewrite (getContext_existing sid w context Hctx). simpl.
    now apply (summarize_short env sid w context). }
  unfold chatRoute. cbn [body_message body_sessionId]. fold message.
  rewrite (handle_run env message sessionId w w context Hsum Hctx).
  cbv zeta. fold sid asked. unfold callOpenAIWithRetry.
  rewrite (retry_loop_run env (chat_request asked) 3 2 3 0
             (with_sessions <[sid := asked]> w) eq_refl ltac:(lia)
             (fun j Hj => Hlimited j ltac:(lia)) (or_intror eq_refl)).
  pose proof (Hlimited 2 ltac:(lia)) as H2. simpl in H2 |- *.
  destruct (openai env (ticks w + 2) (chat_request asked)) as [err|r];
    [|discriminate].
  simpl in H2 |- *. rewrite H2. simpl.
  replace (ticks w + 2 + 1) with (ticks w + 3) by lia. reflexivity.
Qed.

(** X17.  A chat request on a session short of the summary threshold that
    meets a rate-limited backend three times is answered 429 after delays of
    1000 and 2000 ms, and its message stays in the session.  When the client
    then sends the same request again and the backend is still rate limited,
    the message is appended a second time: the session ends with the same
    user message twice, and no assistant message between them. *)
Theorem retried_request_repeats_message (c : ascii) (text : string)
  (sessionId : JsValue) (w : World) (context : list Message) :
  let message := String c text in
  let sid := session_key sessionId in
  let body := {| body_message := Some message; body_sessionId := sessionId |} in
  let once := context ++ [user_message message] in
  let twice := once ++ [user_message message] in
  sessions w !! sid = Some context ->
  length context <= 20 ->
  (forall j, j < 3 ->
     rate_limited (openai env (ticks w + j) (chat_request once)) = true) ->
  (forall j, j < 3 ->
     rate_limited (openai env (ticks w + 3 + j) (chat_request twice)) = true) ->
  chat_status (chatRoute env code_of body w).2 = 429%Z
  /\ delays (trace (chatRoute env code_of body w).1)
     = delays (trace w) ++ [1000; 2000]%Z
  /\ sessions (chatRoute env code_of body w).1 !! sid = Some once
  /\ chat_status (chatRoute env code_of body (chatRoute env code_of body w).1).2
     = 429%Z
  /\ sessions (chatRoute env code_of body (chatRoute env code_of body w).1).1 !! sid
     = Some twice.
Proof.
  intros message sid body once twice Hctx Hlen Hfirst Hsecond.
  assert (forall l : list Message, length l <= 21 -> length (drop 1 l) <= 20)
    as Hdrop.
  { intros [|m l] Hl; [simpl; lia|].
    change (drop 1 (m :: l)) with l. simpl in Hl. lia. }
  assert (length (drop 1 context) <= 20) as Hshort by (apply Hdrop; lia).
  pose proof (chat_route_overloaded c text sessionId w context Hctx Hshort Hfirst)
    as Hone.
  fold message sid body once in Hone. cbv zeta in Hone.
  rewrite Hone. cbn [fst snd chat_status sessions trace].
  split; [reflexivity|]. split; [|split; [apply lookup_insert_eq|]].
  - rewrite delays_app, delays_attempts. reflexivity.
  - assert (length (drop 1 once) <= 20) as Hshort'.
    { apply Hdrop. unfold once. rewrite length_app. simpl. lia. }
    pose proof (chat_route_overloaded c text sessionId
                  {| sessions := <[sid := once]> (sessions w);
                     ticks := ticks w + 3;
                     trace := trace w ++ attempts (chat_request once) 0 2 |}
                  once (lookup_insert_eq _ _ _) Hshort' Hsecond) as Htwo.
    fold message sid body twice in Htwo. cbv zeta in Htwo.
    rewrite Htwo. cbn [fst snd chat_status sessions].
    split; [reflexivity | apply lookup_insert_eq].
Qed.

(** X18.  The two routes drive the same turn: a WhatsApp message with text
    [b] from sender [from] leaves the state a chat request with message [b]
    and session identifier [from] leaves.  Where the turn throws, WhatsApp is
    answered 500 whatever the error, the chat client 429 or 500; where it
    returns, the chat client gets the result and WhatsApp the reply, followed
    by the ticket note exactly when the reply is completed and carries a
    non-empty issue key. *)
Theorem routes_share_the_turn (c : ascii) (b : string) (from : option string)
  (w : World) :
  let text := String c b in
  let form := {| From := from; Body := Some text |} in
  let body := {| body_message := Some text; body_sessionId := from_value from |} in
  (whatsappRoute env form w).1 = (chatRoute env code_of body w).1
  /\ match handleChatMessage env text (from_value from) w with
     | (_, Return result) =>
         (chatRoute env code_of body w).2
         = {| chat_status := 200; chat_payload := ResultJson result |}
         /\ (whatsappRoute env form w).2
            = Twiml
                (match jiraIssueKey result with
                 | Some (String k key) =>
                     if orderCompleted result
                     then reply result +:+ ticket_note (String k key)
                     else reply result
                 | _ => reply result
                 end)
     | (_, Throw err) =>
         (whatsappRoute env form w).2 = ServerError500
         /\ (chat_status (chatRoute env code_of body w).2 = 429%Z
             \/ chat_status (chatRoute env code_of body w).2 = 500%Z)
     end.
Proof.
  intros text form body. subst text form body. unfold whatsappRoute, chatRoute.
  cbn [From Body body_message body_sessionId Js.or_else].
  destruct (handleChatMessage env (String c b) (from_value from) w)
    as [w' [res|err]].
  - split; [reflexivity|]. split; [reflexivity|]. simpl.
    now destruct (orderCompleted res), (jiraIssueKey res) as [[|k key]|].
  - split; [now destruct (_ || _)|]. split; [reflexivity|].
    destruct (_ || _); simpl; auto.
Qed.

End RouteProperties.

Lemma empty_message_by_route_witness :
  chatRoute backend_greets no_code
    {| body_message := Some ""; body_sessionId := JStr "s1" |} initial_world
  = (initial_world,
     {| chat_status := 400;
        chat_payload := ErrorJson "Missing 'message' in body" "" |})
  /\ sessions (whatsappRoute backend_greets
                 {| From := Some "whatsapp:+100"; Body := Some "" |}
                 initial_world).1
       !! JStr "whatsapp:+100"
     = Some [system_message; user_message ""; assistant_message "Hello!"].
Proof.
  destruct (empty_message_by_route backend_greets no_code (Some "") (JStr "s1")
              (Some "whatsapp:+100") initial_world eq_refl) as (Hchat & Hturn & _).
  split; [exact Hchat|]. rewrite Hturn. vm_compute. reflexivity.
Defined.

Lemma retried_request_repeats_message_witness :
  sessions
    (chatRoute backend_always_overloaded no_code
       {| body_message := Some "hi"; body_sessionId := JStr "s1" |}
       (chatRoute backend_always_overloaded no_code
          {| body_message := Some "hi"; body_sessionId := JStr "s1" |}
          (getContextForSession (JStr "s1") initial_world).1).1).1
    !! JStr "s1"
  = Some [system_message; user_message "hi"; user_message "hi"].
Proof.
  destruct (retried_request_repeats_message backend_always_overloaded no_code
              "h" "i" (JStr "s1")
              (getContextForSession (JStr "s1") initial_world).1
              [system_message] eq_refl ltac:(simpl; lia)
              ltac:(intros; reflexivity) ltac:(intros; reflexivity))
    as (_ & _ & _ & _ & H).
  exact H.
Defined.

(** ** Only the first ticket element goes *)

(** X19.  [stripTicketBlock] removes the first [<ticket>...</ticket>]
    element and only that one: what follows its closing tag stays as it is,
    a second ticket element included. *)
Theorem stripTicketBlock_first_only (pre body post : string) :
  Js.lacks "<" pre = true ->
  absent "</ticket>" body ->
  stripTicketBlock (pre +:+ "<ticket>" +:+ body +:+ "</ticket>" +:+ post)
  = Js.trim (pre +:+ post).
Proof.
  intros Hpre Hclose. unfold stripTicketBlock.
  rewrite (search_skip _ _ (tag_pair_solid "ticket") _ _ Hpre).
  assert (RegExp.tag_pair "ticket" ("<ticket>" +:+ body +:+ "</ticket>" +:+ post)
          = Some (body, post)) as Hm.
  { exact (eq_trans (tag_pair_open "ticket" _)
             (lazy_until_first "</ticket>" body post eq_refl Hclose)). }
  rewrite (search_here _ _ _ Hm). simpl prepend.
  now rewrite append_empty_r.
Qed.

Lemma stripTicketBlock_first_only_witness :
  stripTicketBlock
    ("One: " +:+ "<ticket>" +:+ "<su>a</su>" +:+ "</ticket>"
     +:+ " two: <ticket><su>b</su></ticket>")
  = "One:  two: <ticket><su>b</su></ticket>".
Proof.
  exact (stripTicketBlock_first_only "One: " "<su>a</su>"
           " two: <ticket><su>b</su></ticket>" eq_refl eq_refl).
Defined.

(** ** The time a turn can spend backing off *)

Lemma total_app (a b : list Z) : (total (a ++ b) = total a + total b)%Z.
Proof. induction a as [|x a IH]; simpl; [reflexivity | rewrite IH; lia]. Qed.

Lemma call_delays (env : Env) (payload : Payload) (w : World) :
  exists waits,
    delays (trace (callOpenAIWithRetry env payload 3 w).1)
    = delays (trace w) ++ waits
    /\ (0 <= total waits <= 3000)%Z.
Proof.
  destruct (last_attempt_exists env payload 3 (ticks w) ltac:(lia))
    as (k & Hk & Hbefore & Hlast).
  unfold callOpenAIWithRetry.
  rewrite (retry_loop_run env payload 3 k 3 0 w eq_refl Hk Hbefore Hlast).
  exists (delays (attempts payload 0 k)). simpl.
  split; [apply delays_app|].
  rewrite delays_attempts, total_backoff. nia.
Qed.

Lemma summarize_delays (env : Env) (sid : JsValue) (w : World) :
  exists waits,
    delays (trace (summarizeContextIfNeeded env sid w).1)
    = delays (trace w) ++ waits
    /\ (0 <= total waits <= 3000)%Z.
Proof.
  assert (exists waits : list Z,
            delays (trace w) = delays (trace w) ++ waits
            /\ (0 <= total waits <= 3000)%Z) as Hnone
    by (exists []; rewrite app_nil_r; simpl; split; [reflexivity | lia]).
  destruct (sessions w !! sid) as [[|context0 rest]|] eqn:E.
  - now rewrite (summarize_short env sid w [] E) by (simpl; lia).
  - destruct (le_lt_dec (length rest) MAX_HISTORY_MESSAGES_BEFORE_SUMMARY) as [H|H].
    + now rewrite (summarize_short env sid w _ E H).
    + rewrite (summarize_long env sid w _ _ E H).
      destruct (call_delays env (summary_request rest) w) as (waits & Hw & Hb).
      exists waits. split; [|exact Hb].
      now destruct (callOpenAIWithRetry env (summary_request rest) 3 w)
        as [w' [[r|]|e]].
  - now rewrite summarize_missing.
Qed.

(** X20.  However the backend behaves, the back-off sleeps of one turn add
    up to at most 6000 ms (3000 for the summariser, 3000 for the reply), and
    the turn makes at most eight external calls (three attempts for each of
    the two requests, one mail, one Jira request). *)
Theorem turn_backoff_bounded (env : Env) (message : string)
  (sessionId : JsValue) (w : World) :
  (exists waits,
     delays (trace (handleChatMessage env message sessionId w).1)
     = delays (trace w) ++ waits
     /\ (0 <= total waits <= 6000)%Z)
  /\ ticks w <= ticks (handleChatMessage env message sessionId w).1 <= ticks w + 8.
Proof.
  assert (forall (env0 : Env) payload w0,
            ticks w0 <= ticks (callOpenAIWithRetry env0 payload 3 w0).1
            <= ticks w0 + 3) as Hticks.
  { intros env0 payload w0.
    destruct (last_attempt_exists env0 payload 3 (ticks w0) ltac:(lia))
      as (k & Hk & Hbefore & Hlast).
    unfold callOpenAIWithRetry.
    rewrite (retry_loop_run env0 payload 3 k 3 0 w0 eq_refl Hk Hbefore Hlast).
    simpl. lia. }
  assert (forall sid w0,
            ticks w0 <= ticks (summarizeContextIfNeeded env sid w0).1
            <= ticks w0 + 3) as Hsticks.
  { intros sid w0.
    destruct (sessions w0 !! sid) as [[|context0 rest]|] eqn:E.
    - rewrite (summarize_short env sid w0 [] E) by (simpl; lia). simpl. lia.
    - destruct (le_lt_dec (length rest) MAX_HISTORY_MESSAGES_BEFORE_SUMMARY)
        as [H|H].
      + rewrite (summarize_short env sid w0 _ E H). simpl. lia.
      + rewrite (summarize_long env sid w0 _ _ E H).
        specialize (Hticks env (summary_request rest) w0).
        now destruct (callOpenAIWithRetry env (summary_request rest) 3 w0)
          as [w' [[r|]|e]].
    - rewrite summarize_missing by assumption. simpl. lia. }
  assert (trace (getContextForSession (session_key sessionId) w).1 = trace w
          /\ ticks (getContextForSession (session_key sessionId) w).1 = ticks w)
    as [Ht0 Hk0]
    by (unfold getContextForSession; now destruct (sessions w !! _)).
  destruct (summarize_delays env (session_key sessionId)
              (getContextForSession (session_key sessionId) w).1)
    as (waits1 & Hw1 & Hb1).
  specialize (Hsticks (session_key sessionId)
                (getContextForSession (session_key sessionId) w).1).
  rewrite Ht0 in Hw1. rewrite Hk0 in Hsticks.
  destruct (prepare_cases env (session_key sessionId) w)
    as (w1 & [[err Hsum]|(Hsum & context & Hctx & _)]);
    rewrite Hsum in Hw1, Hsticks; simpl in Hw1, Hsticks.
  - rewrite (handle_summary_throw env message sessionId w w1 err Hsum). simpl.
    split; [|lia]. exists waits1. split; [exact Hw1 | lia].
  - rewrite (handle_run env message sessionId w w1 context Hsum Hctx).
    cbv zeta.
    set (asked := context ++ [user_message message]).
    destruct (call_delays env (chat_request asked)
                (with_sessions <[session_key sessionId := asked]> w1))
      as (waits2 & Hw2 & Hb2).
    specialize (Hticks env (chat_request asked)
                  (with_sessions <[session_key sessionId := asked]> w1)).
    simpl in Hw2, Hticks. rewrite Hw1, <- app_assoc in Hw2.
    assert (0 <= total (waits1 ++ waits2) <= 6000)%Z as Hb
      by (rewrite total_app; lia).
    destruct (callOpenAIWithRetry env (chat_request asked) 3 _)
      as [w2 [[r|]|err]]; simpl in Hw2, Hticks;
      try (split; [exists (waits1 ++ waits2); now split | simpl; lia]).
    destruct (isOrderCompleted _);
      [|split; [exists (waits1 ++ waits2); now split | simpl; lia]].
    destruct (jira env _ _ _) as [key|]; simpl;
      (split; [exists (waits1 ++ waits2); split; [|exact Hb] | lia]);
      rewrite !delays_app, Hw2; simpl; now rewrite !app_nil_r.
Qed.
